(** * SequentialExecutor::Execute (onnxruntime/core/framework/sequential_executor.cc)

    A shallow embedding of the sequential graph executor: the per-node
    loop of the inner [Execute] overload, [ReleaseNodeMLValues], and the
    run-registry logic of the outer [Execute] overload (full runs, new
    partial runs, resumed partial runs).

    The executor drives collaborators that live in other files (the
    execution frame, the kernels, the fences).  Calls to them are recorded
    as a list of [Event]s, in call order; their results are taken from the
    interfaces [FrameModel], [OpKernel] and [SessionState] below.
    Logging, profiling and tracing (VLOGS, Profiler, NVTX, instrumentation)
    have no influence on control flow and are left out. *)

From Stdlib Require Import ZArith String List Bool Lia.
From stdpp Require Import base option list gmap strings.
Import ListNotations.

Local Open Scope string_scope.
Local Open Scope list_scope.
Local Open Scope Z_scope.

(** ** common::Status *)

Inductive StatusCategory := NONE | SYSTEM | ONNXRUNTIME.

Inductive StatusCode :=
| OK | FAIL | INVALID_ARGUMENT | NO_SUCHFILE | NO_MODEL | ENGINE_ERROR
| RUNTIME_EXCEPTION | INVALID_PROTOBUF | MODEL_LOADED | NOT_IMPLEMENTED
| INVALID_GRAPH | EP_FAIL.

(** [Status::OK()] or [Status(category, code, msg)]. *)
Inductive Status :=
| Status_OK
| Status_ (category : StatusCategory) (code : StatusCode) (msg : string).

Definition IsOK (s : Status) : bool :=
  match s with Status_OK => true | Status_ _ _ _ => false end.

Definition Category (s : Status) : StatusCategory :=
  match s with Status_OK => NONE | Status_ c _ _ => c end.

Definition Code (s : Status) : StatusCode :=
  match s with Status_OK => OK | Status_ _ c _ => c end.

Definition ErrorMessage (s : Status) : string :=
  match s with Status_OK => "" | Status_ _ _ m => m end.

(** How a C++ call can end. *)
Inductive Outcome (A : Type) :=
| Returned (a : A)        (* the function returns [a] *)
| Thrown (what : string)  (* an ORT_ENFORCE fails: an exception leaves the function *)
| Undefined.              (* null dereference or index out of range *)
Arguments Returned {A} a.
Arguments Thrown {A} what.
Arguments Undefined {A}.

(** What a kernel's Compute can do: return a status, or raise a
    std::exception (caught by ORT_TRY / ORT_CATCH). *)
Inductive ComputeResult :=
| Returns (s : Status)
| Raises (what : string).

Inductive OrtMemType := OrtMemTypeCPUInput | OrtMemTypeCPUOutput | OrtMemTypeDefault.

Definition OrtMemType_eqb (a b : OrtMemType) : bool :=
  match a, b with
  | OrtMemTypeCPUInput, OrtMemTypeCPUInput
  | OrtMemTypeCPUOutput, OrtMemTypeCPUOutput
  | OrtMemTypeDefault, OrtMemTypeDefault => true
  | _, _ => false
  end.

#[global] Instance OrtMemType_eq_dec : EqDecision OrtMemType.
Proof. solve_decision. Defined.

Definition NodeIndex := nat.
Definition Fence_t := nat.

Definition kCpuExecutionProvider : string := "CPUExecutionProvider".

Definition INT64_MAX : Z := 9223372036854775807.
Definition INT64_MIN : Z := -9223372036854775808.

(** [x + 1] on a 64-bit signed counter, wrap-around written out. *)
Definition int64_incr (x : Z) : Z :=
  if x + 1 <=? INT64_MAX then x + 1 else INT64_MIN.

(** ** Calls to collaborators, in the order the executor makes them *)

Inductive Event :=
| BeforeUsingAsInput (fence : Fence_t) (provider_type : string) (queue_id : Z)
| BeforeUsingAsOutput (fence : Fence_t) (provider_type : string) (queue_id : Z)
| KernelCompute (node : NodeIndex)
| AfterUsedAsInput (fence : Fence_t) (queue_id : Z)
| AfterUsedAsOutput (fence : Fence_t) (queue_id : Z)
| ReleaseValue (ort_value_idx : Z)
| LockGraphRuns
| UnlockGraphRuns
| GraphRunsInsert (key : Z)
| GraphRunsFind (key : Z)
| GraphRunsErase (key : Z).

(** The kernels invoked, the slots released and the registry calls of a
    trace. *)
Definition computed_node (e : Event) : option NodeIndex :=
  match e with KernelCompute n => Some n | _ => None end.

Definition released_slot (e : Event) : option Z :=
  match e with ReleaseValue i => Some i | _ => None end.

Definition is_registry_event (e : Event) : bool :=
  match e with
  | LockGraphRuns | UnlockGraphRuns
  | GraphRunsInsert _ | GraphRunsFind _ | GraphRunsErase _ => true
  | _ => false
  end.

Definition is_fence_event (e : Event) : bool :=
  match e with
  | BeforeUsingAsInput _ _ _ | BeforeUsingAsOutput _ _ _
  | AfterUsedAsInput _ _ | AfterUsedAsOutput _ _ => true
  | _ => false
  end.

Definition computes (evs : list Event) : list NodeIndex := omap computed_node evs.
Definition releases (evs : list Event) : list Z := omap released_slot evs.

(** [sub] occurs in [s]. *)
Definition contains (sub s : string) : Prop :=
  exists a b, s = (a ++ sub ++ b)%string.

(** ** The execution frame, at its interface

    [FrameState] is the value-slot table of one ExecutionFrame together
    with its feed/fetch mappings; execution_frame.{h,cc} are not part of
    the sources at hand, so its operations are parameters. *)
Class FrameModel := {
  OrtValue : Type;
  FetchAllocators : Type;
  FrameState : Type;
  IsTensor : OrtValue -> bool;
  (* ExecutionFrame{feed_mlvalue_idxs, feeds, fetch_mlvalue_idxs, fetches, fetch_allocators, session_state} *)
  NewFrame : list Z -> list OrtValue -> list Z -> list OrtValue -> FetchAllocators -> FrameState;
  UpdateFeedAndFetches : list Z -> list OrtValue -> list Z -> list OrtValue -> FrameState -> FrameState;
  (* frame.GetOutputs(fetches, transfer_ownership): status, new fetches, frame afterwards *)
  GetOutputs : FrameState -> list OrtValue -> bool -> Status * list OrtValue * FrameState;
  ReleaseMLValue : FrameState -> Z -> Status * FrameState;
  HasMemoryPatternPlanner : FrameState -> bool;
  GeneratePatterns : FrameState -> Status;
}.

Section Executor.
Context `{FM : FrameModel}.

(** The frame object: slots plus the resume cursor. *)
Record ExecutionFrame := {
  state : FrameState;
  program_counter_ : nat;
}.

(** A kernel with the accessors of the OpKernelContextInternal that the
    executor builds for it over a frame. *)
Record OpKernel := {
  OpName : string;                       (* KernelDef().OpName() *)
  ExecQueueId : Z;                       (* KernelDef().ExecQueueId() *)
  InputMemoryType : nat -> OrtMemType;   (* KernelDef().InputMemoryType(i) *)
  AllocateInputsContiguously : bool;     (* KernelDef().AllocateInputsContiguously() *)
  GetExecutionProviderType : string;     (* Node().GetExecutionProviderType() *)
  Compute : FrameState -> ComputeResult * FrameState;
  InputCount : nat;
  ImplicitInputCount : nat;
  OutputCount : nat;
  InputFence : FrameState -> nat -> option Fence_t;
  ImplicitInputFence : FrameState -> nat -> option Fence_t;
  OutputFence : FrameState -> nat -> option Fence_t;
  VerifyInputTensorsAllocatedContiguously : FrameState -> Status;
}.

(** Node metadata read through the graph viewer. *)
Record Node := {
  Name : string;
  OpType : string;
}.

Record NodeExecutionPlan := {
  node_index : NodeIndex;
  free_from_index : Z;
  free_to_index : Z;
}.

(** The read-only part of SessionState the executor consults. *)
Record SessionState := {
  execution_plan : list NodeExecutionPlan;   (* GetExecutionPlan()->execution_plan *)
  to_be_freed : list Z;                      (* GetExecutionPlan()->to_be_freed *)
  NodeHasFence : NodeIndex -> bool;
  GetKernel : NodeIndex -> option OpKernel;  (* None is nullptr *)
  GetNode : NodeIndex -> Node;               (* *graph_viewer.GetNode(i) *)
  GetToBeExecutedNodes : list Z -> option (gset NodeIndex);
  GetTransferIntermidiateTensorOwnership : bool;
  UpdateMemoryPatternGroupCache : list OrtValue -> Status;
}.

(** The mutable registry of partial runs held by SessionState. *)
Record GraphRuns := {
  graph_runs_ : gmap Z ExecutionFrame;
  graph_runs_counter_ : Z;
}.

(** The executor object and the build switches that select code. *)
Record SequentialExecutor := {
  (* the shared flag, as read by the poll at the top of the iteration
     for the given program counter *)
  terminate_flag_ : nat -> bool;
  only_execute_path_to_fetches_ : bool;
  ORT_MINIMAL_BUILD : bool;
  ENABLE_TRAINING : bool;
}.

Variable DEFAULT_RUN_ID : Z.
Variable DEFAULT_PARTIAL_RUN_ID : Z.

Variable ex : SequentialExecutor.
Variable session_state : SessionState.

(** ** Fence synchronisation passes *)

(** Lines 374-383 (and 199-208): the loop over the non-implicit inputs. *)
Definition sync_before_inputs (k : OpKernel) (fs : FrameState) : list Event :=
  flat_map (fun input_index =>
    match InputFence k fs input_index with
    | Some fence =>
        let execution_provider_type :=
          if OrtMemType_eqb OrtMemTypeCPUInput (InputMemoryType k input_index)
          then kCpuExecutionProvider else GetExecutionProviderType k in
        [BeforeUsingAsInput fence execution_provider_type (ExecQueueId k)]
    | None => []
    end) (seq 0 (InputCount k)).

(** Lines 385-394 (and 210-219): the loop over the implicit inputs; the
    memory type consulted is [InputMemoryType input_index]. *)
Definition sync_before_implicit_inputs (k : OpKernel) (fs : FrameState) : list Event :=
  flat_map (fun input_index =>
    match ImplicitInputFence k fs input_index with
    | Some fence =>
        let execution_provider_type :=
          if OrtMemType_eqb OrtMemTypeCPUInput (InputMemoryType k input_index)
          then kCpuExecutionProvider else GetExecutionProviderType k in
        [BeforeUsingAsInput fence execution_provider_type (ExecQueueId k)]
    | None => []
    end) (seq 0 (ImplicitInputCount k)).

(** Lines 396-401 (and 221-226). *)
Definition sync_before_outputs (k : OpKernel) (fs : FrameState) : list Event :=
  flat_map (fun output_index =>
    match OutputFence k fs output_index with
    | Some fence => [BeforeUsingAsOutput fence (GetExecutionProviderType k) (ExecQueueId k)]
    | None => []
    end) (seq 0 (OutputCount k)).

(** "sync before compute", guarded by NodeHasFence. *)
Definition sync_before (node_index : NodeIndex) (k : OpKernel) (fs : FrameState) : list Event :=
  if NodeHasFence session_state node_index
  then sync_before_inputs k fs ++ sync_before_implicit_inputs k fs ++ sync_before_outputs k fs
  else [].

Definition sync_after_inputs (k : OpKernel) (fs : FrameState) : list Event :=
  flat_map (fun input_index =>
    match InputFence k fs input_index with
    | Some fence => [AfterUsedAsInput fence (ExecQueueId k)]
    | None => []
    end) (seq 0 (InputCount k)).

Definition sync_after_implicit_inputs (k : OpKernel) (fs : FrameState) : list Event :=
  flat_map (fun input_index =>
    match ImplicitInputFence k fs input_index with
    | Some fence => [AfterUsedAsInput fence (ExecQueueId k)]
    | None => []
    end) (seq 0 (ImplicitInputCount k)).

Definition sync_after_outputs (k : OpKernel) (fs : FrameState) : list Event :=
  flat_map (fun output_index =>
    match OutputFence k fs output_index with
    | Some fence => [AfterUsedAsOutput fence (ExecQueueId k)]
    | None => []
    end) (seq 0 (OutputCount k)).

(** "sync after compute for outputs", lines 508-529. *)
Definition sync_after (node_index : NodeIndex) (k : OpKernel) (fs : FrameState) : list Event :=
  if NodeHasFence session_state node_index
  then sync_after_inputs k fs ++ sync_after_implicit_inputs k fs ++ sync_after_outputs k fs
  else [].

(** ** ReleaseNodeMLValues *)

(** [to_be_freed[i]] for an int [i]. *)
Definition to_be_freed_at (i : Z) : option Z :=
  if 0 <=? i then to_be_freed session_state !! Z.to_nat i else None.

(** The loop [for (i = from; i <= to; ++i)], [n] iterations left. *)
Fixpoint release_from (n : nat) (i : Z) (fs : FrameState)
  : Outcome Status * FrameState * list Event :=
  match n with
  | O => (Returned Status_OK, fs, [])
  | S n' =>
      match to_be_freed_at i with
      | None => (Undefined, fs, [])
      | Some ort_value_idx =>
          match ReleaseMLValue fs ort_value_idx with
          | (Status_OK, fs') =>
              let '(r, fs'', evs) := release_from n' (i + 1) fs' in
              (r, fs'', ReleaseValue ort_value_idx :: evs)
          | (err, fs') => (Returned err, fs', [ReleaseValue ort_value_idx])
          end
      end
  end.

Definition ReleaseNodeMLValues (fs : FrameState) (node_exec_plan : NodeExecutionPlan)
  : Outcome Status * FrameState * list Event :=
  release_from (Z.to_nat (free_to_index node_exec_plan - free_from_index node_exec_plan + 1))
               (free_from_index node_exec_plan) fs.

(** ** The per-node loop of the inner Execute *)

(** Leave the for loop body for the next iteration, or leave Execute. *)
Inductive Flow :=
| Next
| Exit (o : Outcome Status).

Definition terminated_status : Status :=
  Status_ ONNXRUNTIME FAIL "Exiting due to terminate flag being set to true.".

Definition null_kernel_status (node : Node) : Status :=
  Status_ ONNXRUNTIME FAIL ("Got nullptr from GetKernel for node: " ++ Name node)%string.

(** Lines 460-470: the status built from a failed compute_status. *)
Definition compute_failure_status (node : Node) (compute_status : Status) : Status :=
  Status_ (Category compute_status) (Code compute_status)
    ("Non-zero status code returned while running " ++ OpType node ++ " node. Name:'"
       ++ Name node ++ "' Status Message: " ++ ErrorMessage compute_status)%string.

(** Lines 439-452: ORT_TRY { verify (training builds); Compute } ORT_CATCH.
    [inl s]: ORT_RETURN_IF_ERROR left Execute with [s];
    [inr cs]: compute_status. *)
Definition try_compute (node_index : NodeIndex) (k : OpKernel) (fs : FrameState)
  : (Status + Status) * FrameState * list Event :=
  let verify :=
    if ENABLE_TRAINING ex && AllocateInputsContiguously k
    then VerifyInputTensorsAllocatedContiguously k fs else Status_OK in
  if IsOK verify then
    match Compute k fs with
    | (Returns s, fs') => (inr s, fs', [KernelCompute node_index])
    | (Raises what, fs') => (inr (Status_ ONNXRUNTIME RUNTIME_EXCEPTION what), fs', [KernelCompute node_index])
    end
  else (inl verify, fs, []).

(** Lines 268-282 and 329-332: is the node left out by path pruning? *)
Definition node_is_pruned (fetch_mlvalue_idxs : list Z) (node_index : NodeIndex) : bool :=
  if ORT_MINIMAL_BUILD ex then false
  else
    match GetToBeExecutedNodes session_state fetch_mlvalue_idxs with
    | Some to_be_executed_nodes =>
        only_execute_path_to_fetches_ ex && bool_decide (node_index ∉ to_be_executed_nodes)
    | None => false
    end.

(** One iteration of the for loop at lines 320-557. *)
Definition execute_node (fetch_mlvalue_idxs : list Z) (program_counter : nat) (fs : FrameState)
  : Flow * FrameState * list Event :=
  match execution_plan session_state !! program_counter with
  | None => (Exit Undefined, fs, [])
  | Some node_exec_plan =>
      if terminate_flag_ ex program_counter
      then (Exit (Returned terminated_status), fs, [])
      else
        let node_index := node_index node_exec_plan in
        if node_is_pruned fetch_mlvalue_idxs node_index then (Next, fs, [])
        else
          let node := GetNode session_state node_index in
          match GetKernel session_state node_index with
          | None => (Exit (Returned (null_kernel_status node)), fs, [])
          | Some p_op_kernel =>
              let before := sync_before node_index p_op_kernel fs in
              match try_compute node_index p_op_kernel fs with
              | (inl s, fs1, evc) => (Exit (Returned s), fs1, before ++ evc)
              | (inr compute_status, fs1, evc) =>
                  if IsOK compute_status then
                    let after := sync_after node_index p_op_kernel fs1 in
                    match ReleaseNodeMLValues fs1 node_exec_plan with
                    | (Returned Status_OK, fs2, evr) =>
                        (Next, fs2, before ++ evc ++ after ++ evr)
                    | (o, fs2, evr) =>
                        (Exit o, fs2, before ++ evc ++ after ++ evr)
                    end
                  else
                    (Exit (Returned (compute_failure_status node compute_status)),
                     fs1, before ++ evc)
              end
          end
  end.

(** The for loop itself, over the program counters it goes through. *)
Fixpoint execute_nodes (fetch_mlvalue_idxs : list Z) (pcs : list nat) (fs : FrameState)
  : Flow * FrameState * list Event :=
  match pcs with
  | [] => (Next, fs, [])
  | program_counter :: rest =>
      match execute_node fetch_mlvalue_idxs program_counter fs with
      | (Next, fs', evs) =>
          let '(fl, fs'', evs') := execute_nodes fetch_mlvalue_idxs rest fs' in
          (fl, fs'', evs ++ evs')
      | (Exit o, fs', evs) => (Exit o, fs', evs)
      end
  end.

(** Lines 582-599: publish the memory patterns once the loop is over. *)
Definition publish_memory_patterns (feeds : list OrtValue) (fs : FrameState) : Status :=
  if HasMemoryPatternPlanner fs then
    if forallb IsTensor feeds then
      match GeneratePatterns fs with
      | Status_OK => UpdateMemoryPatternGroupCache session_state feeds
      | err => err
      end
    else Status_OK
  else Status_OK.

(** The inner overload:
    Execute(session_state, feeds, fetch_mlvalue_idxs, logger, frame,
            program_counter_start, program_counter_end). *)
Definition Execute_range (feeds : list OrtValue) (fetch_mlvalue_idxs : list Z)
    (fs : FrameState) (program_counter_start program_counter_end : nat)
  : Outcome Status * FrameState * list Event :=
  match execute_nodes fetch_mlvalue_idxs
          (seq program_counter_start (program_counter_end - program_counter_start)) fs with
  | (Next, fs', evs) => (Returned (publish_memory_patterns feeds fs'), fs', evs)
  | (Exit o, fs', evs) => (o, fs', evs)
  end.

(** ** The outer overload: full and partial runs *)

Record ExecuteResult := {
  result : Outcome Status;
  runs_after : GraphRuns;         (* graph_runs_ and graph_runs_counter_ afterwards *)
  run_id_after : Z;               (* the int64_t& run_id afterwards *)
  fetches_after : list OrtValue;
  events : list Event;
}.

(** Lines 173-179: the scan for program_counter_end, [n] iterations left
    (the scan never needs more than exec_plan_size + 1 of them).
    [None]: a null kernel was dereferenced. *)
Fixpoint find_window_end (n : nat) (program_counter_ program_counter_end : nat) : option nat :=
  match n with
  | O => Some program_counter_end
  | S n' =>
      match execution_plan session_state !! program_counter_end with
      | None => Some program_counter_end
      | Some node_exec_plan =>
          match GetKernel session_state (node_index node_exec_plan) with
          | None => None
          | Some k =>
              if negb (String.eqb (OpName k) "YieldOp")
                 || Nat.eqb program_counter_end program_counter_
              then find_window_end n' program_counter_ (S program_counter_end)
              else Some program_counter_end
          end
      end
  end.

(** Lines 184-228: the fence waits for the node at program_counter_end. *)
Definition wait_before_next_node (fs : FrameState) (program_counter_end : nat)
  : Status * list Event :=
  match execution_plan session_state !! program_counter_end with
  | None => (Status_OK, [])
  | Some node_exec_plan =>
      let node_index := node_index node_exec_plan in
      match GetKernel session_state node_index with
      | None => (null_kernel_status (GetNode session_state node_index), [])
      | Some p_op_kernel => (Status_OK, sync_before node_index p_op_kernel fs)
      end
  end.

(** The frame is owned by the registry and mutated in place: every
    change to it is a change to the entry [it] points to. *)
Definition store_frame (runs : GraphRuns) (it : Z) (frame : ExecutionFrame) : GraphRuns :=
  {| graph_runs_ := <[it := frame]> (graph_runs_ runs);
     graph_runs_counter_ := graph_runs_counter_ runs |}.

Definition erase_frame (runs : GraphRuns) (it : Z) : GraphRuns :=
  {| graph_runs_ := delete it (graph_runs_ runs);
     graph_runs_counter_ := graph_runs_counter_ runs |}.

(** Lines 168-247, once [frame] and [it] are set. *)
Definition execute_window (runs : GraphRuns) (it : Z) (frame : ExecutionFrame) (run_id : Z)
    (feeds : list OrtValue) (fetch_mlvalue_idxs : list Z) (fetches : list OrtValue)
  : ExecuteResult :=
  let exec_plan_size := length (execution_plan session_state) in
  let start := program_counter_ frame in
  match find_window_end (S exec_plan_size) start start with
  | None =>
      {| result := Undefined; runs_after := runs; run_id_after := run_id;
         fetches_after := fetches; events := [] |}
  | Some program_counter_end =>
      match Execute_range feeds fetch_mlvalue_idxs (state frame) start program_counter_end with
      | (Returned Status_OK, fs1, ev1) =>
          match wait_before_next_node fs1 program_counter_end with
          | (Status_OK, ev2) =>
              match GetOutputs fs1 fetches (GetTransferIntermidiateTensorOwnership session_state) with
              | (Status_OK, fetches', fs2) =>
                  let pc' :=
                    if GetTransferIntermidiateTensorOwnership session_state
                    then (program_counter_end + 1)%nat else program_counter_end in
                  let frame' := {| state := fs2; program_counter_ := pc' |} in
                  if Nat.eqb pc' exec_plan_size then
                    {| result := Returned Status_OK;
                       runs_after := erase_frame runs it;
                       run_id_after := run_id; fetches_after := fetches';
                       events := ev1 ++ ev2 ++ [LockGraphRuns; GraphRunsErase it; UnlockGraphRuns] |}
                  else
                    {| result := Returned Status_OK;
                       runs_after := store_frame runs it frame';
                       run_id_after := run_id; fetches_after := fetches';
                       events := ev1 ++ ev2 |}
              | (err, fetches', fs2) =>
                  {| result := Returned err;
                     runs_after := store_frame runs it {| state := fs2; program_counter_ := start |};
                     run_id_after := run_id; fetches_after := fetches';
                     events := ev1 ++ ev2 |}
              end
          | (err, ev2) =>
              {| result := Returned err;
                 runs_after := store_frame runs it {| state := fs1; program_counter_ := start |};
                 run_id_after := run_id; fetches_after := fetches;
                 events := ev1 ++ ev2 |}
          end
      | (o, fs1, ev1) =>
          {| result := o;
             runs_after := store_frame runs it {| state := fs1; program_counter_ := start |};
             run_id_after := run_id; fetches_after := fetches;
             events := ev1 |}
      end
  end.

Definition with_events_before (evs : list Event) (r : ExecuteResult) : ExecuteResult :=
  {| result := result r; runs_after := runs_after r; run_id_after := run_id_after r;
     fetches_after := fetches_after r; events := evs ++ events r |}.

(** Execute(session_state, feed_mlvalue_idxs, feeds, fetch_mlvalue_idxs,
            fetches, fetch_allocators, logger, run_id), lines 126-250. *)
Definition Execute (runs : GraphRuns)
    (feed_mlvalue_idxs : list Z) (feeds : list OrtValue)
    (fetch_mlvalue_idxs : list Z) (fetches : list OrtValue)
    (fetch_allocators : FetchAllocators) (run_id : Z) : ExecuteResult :=
  let exec_plan_size := length (execution_plan session_state) in
  if run_id =? DEFAULT_RUN_ID then
    let frame := NewFrame feed_mlvalue_idxs feeds fetch_mlvalue_idxs fetches fetch_allocators in
    match Execute_range feeds fetch_mlvalue_idxs frame 0 exec_plan_size with
    | (Returned Status_OK, fs1, ev1) =>
        match GetOutputs fs1 fetches (GetTransferIntermidiateTensorOwnership session_state) with
        | (st, fetches', _) =>
            {| result := Returned st; runs_after := runs; run_id_after := run_id;
               fetches_after := fetches'; events := ev1 |}
        end
    | (o, _, ev1) =>
        {| result := o; runs_after := runs; run_id_after := run_id;
           fetches_after := fetches; events := ev1 |}
    end
  else if run_id =? DEFAULT_PARTIAL_RUN_ID then
    let p_frame :=
      {| state := NewFrame feed_mlvalue_idxs feeds fetch_mlvalue_idxs fetches fetch_allocators;
         program_counter_ := 0 |} in
    let key := graph_runs_counter_ runs in
    match graph_runs_ runs !! key with
    | None =>
        let inserted := store_frame runs key p_frame in
        if run_id <? INT64_MAX then
          with_events_before [LockGraphRuns; GraphRunsInsert key; UnlockGraphRuns]
            (execute_window
               {| graph_runs_ := graph_runs_ inserted;
                  graph_runs_counter_ := int64_incr key |}
               key p_frame key feeds fetch_mlvalue_idxs fetches)
        else
          {| result := Thrown "run_id < INT64_MAX"; runs_after := inserted;
             run_id_after := run_id; fetches_after := fetches;
             events := [LockGraphRuns; GraphRunsInsert key; UnlockGraphRuns] |}
    | Some _ =>
        (* std::map::insert keeps the entry already there; the new frame
           dies with the temporary pair and [frame] dangles *)
        if run_id <? INT64_MAX then
          {| result := Undefined;
             runs_after := {| graph_runs_ := graph_runs_ runs;
                              graph_runs_counter_ := int64_incr key |};
             run_id_after := key; fetches_after := fetches;
             events := [LockGraphRuns; GraphRunsInsert key; UnlockGraphRuns] |}
        else
          {| result := Thrown "run_id < INT64_MAX"; runs_after := runs;
             run_id_after := run_id; fetches_after := fetches;
             events := [LockGraphRuns; GraphRunsInsert key; UnlockGraphRuns] |}
    end
  else if run_id <? 0 then
    {| result := Thrown "run_id >= 0"; runs_after := runs; run_id_after := run_id;
       fetches_after := fetches; events := [] |}
  else
    match graph_runs_ runs !! run_id with
    | None =>
        {| result := Thrown "it != session_state.graph_runs_.end()"; runs_after := runs;
           run_id_after := run_id; fetches_after := fetches; events := [GraphRunsFind run_id] |}
    | Some found =>
        let frame :=
          {| state := UpdateFeedAndFetches feed_mlvalue_idxs feeds fetch_mlvalue_idxs fetches
                        (state found);
             program_counter_ := program_counter_ found |} in
        with_events_before [GraphRunsFind run_id]
          (execute_window (store_frame runs run_id frame) run_id frame run_id
             feeds fetch_mlvalue_idxs fetches)
    end.

(** ** A caller that drives a partial run to its end *)

Inductive Drive :=
| Completed (evs : list Event)                       (* the entry has left the registry *)
| Stopped (o : Outcome Status) (evs : list Event)    (* a call did not return success *)
| Unfinished (evs : list Event).                     (* still registered after the last call *)

Definition after_events (evs : list Event) (d : Drive) : Drive :=
  match d with
  | Completed evs' => Completed (evs ++ evs')
  | Stopped o evs' => Stopped o (evs ++ evs')
  | Unfinished evs' => Unfinished (evs ++ evs')
  end.

(** Call Execute with [run_id] and the same arguments, at most [n] times,
    until the run's entry is gone. *)
Fixpoint resume_until_complete (n : nat) (runs : GraphRuns) (run_id : Z)
    (feed_mlvalue_idxs : list Z) (feeds : list OrtValue)
    (fetch_mlvalue_idxs : list Z) (fetches : list OrtValue)
    (fetch_allocators : FetchAllocators) : Drive :=
  match n with
  | O => Unfinished []
  | S n' =>
      let r := Execute runs feed_mlvalue_idxs feeds fetch_mlvalue_idxs fetches
                 fetch_allocators run_id in
      match result r with
      | Returned Status_OK =>
          match graph_runs_ (runs_after r) !! run_id with
          | None => Completed (events r)
          | Some _ =>
              after_events (events r)
                (resume_until_complete n' (runs_after r) run_id feed_mlvalue_idxs feeds
                   fetch_mlvalue_idxs fetches fetch_allocators)
          end
      | o => Stopped o (events r)
      end
  end.

(** Start a new partial run and resume it, at most [n] times, until it is
    complete. *)
Definition partial_run_to_completion (n : nat) (runs : GraphRuns)
    (feed_mlvalue_idxs : list Z) (feeds : list OrtValue)
    (fetch_mlvalue_idxs : list Z) (fetches : list OrtValue)
    (fetch_allocators : FetchAllocators) : Drive :=
  let r := Execute runs feed_mlvalue_idxs feeds fetch_mlvalue_idxs fetches
             fetch_allocators DEFAULT_PARTIAL_RUN_ID in
  match result r with
  | Returned Status_OK =>
      match graph_runs_ (runs_after r) !! run_id_after r with
      | None => Completed (events r)
      | Some _ =>
          after_events (events r)
            (resume_until_complete n (runs_after r) (run_id_after r) feed_mlvalue_idxs feeds
               fetch_mlvalue_idxs fetches fetch_allocators)
      end
  | o => Stopped o (events r)
  end.

(** ** Vocabulary for the statements *)

(** The positions [i, i+1, ..., i+n-1]. *)
Definition positions (i : Z) (n : nat) : list Z :=
  map (fun j => i + Z.of_nat j) (seq 0 n).

(** The positions free_from_index .. free_to_index of a plan entry, and
    the slots to_be_freed lists there. *)
Definition free_positions (node_exec_plan : NodeExecutionPlan) : list Z :=
  positions (free_from_index node_exec_plan)
    (Z.to_nat (free_to_index node_exec_plan - free_from_index node_exec_plan + 1)).

Definition freed_slots (node_exec_plan : NodeExecutionPlan) : list Z :=
  omap to_be_freed_at (free_positions node_exec_plan).

(** The plan entries at the program counters [pcs] that path pruning keeps. *)
Definition kept_entries (fetch_mlvalue_idxs : list Z) (pcs : list nat) : list NodeExecutionPlan :=
  flat_map (fun pc =>
    match execution_plan session_state !! pc with
    | Some node_exec_plan =>
        if node_is_pruned fetch_mlvalue_idxs (node_index node_exec_plan)
        then [] else [node_exec_plan]
    | None => []
    end) pcs.

(** The events of one completed node visit: fence calls, the kernel's
    Compute, fence calls, then the releases of the node's free range. *)
Definition node_block (node_exec_plan : NodeExecutionPlan) (blk : list Event) : Prop :=
  exists pre post,
    blk = pre ++ KernelCompute (node_index node_exec_plan) :: post
              ++ map ReleaseValue (freed_slots node_exec_plan)
    /\ Forall (fun e => is_fence_event e = true) pre
    /\ Forall (fun e => is_fence_event e = true) post
    /\ length (freed_slots node_exec_plan) = length (free_positions node_exec_plan).

(** The cursor of the frame registered for [run_id], if there is one. *)
Definition saved_cursor (runs : GraphRuns) (run_id : Z) : option nat :=
  program_counter_ <$> graph_runs_ runs !! run_id.

(** One hook call for each index below [count] that has a fence, in index
    order. *)
Definition hooks (count : nat) (fence_of : nat -> option Fence_t)
    (hook : nat -> Fence_t -> Event) : list Event :=
  omap (fun i => hook i <$> fence_of i) (seq 0 count).

End Executor.

Arguments Execute {FM}.
Arguments partial_run_to_completion {FM}.
Arguments resume_until_complete {FM}.
Arguments execute_window {FM}.
Arguments Execute_range {FM}.
Arguments execute_nodes {FM}.
Arguments execute_node {FM}.

(** ** A small concrete frame and a few kernels, to run the executor on *)

Module Sample.

(** Modelled from the spec: the execution frame, whose code
    (execution_frame.h/.cc) is not among the sources.  A frame holds
    integer-indexed value slots, each unset or live; feeds are stored into
    their slots, releasing a slot clears it, and GetOutputs copies the slots
    named by the fetch indices.  Here: eight integer slots and the list of
    slots to fetch. *)
Definition Slots : Type := list (option Z) * list Z.

Definition put_feeds (idxs : list Z) (feeds : list Z) (t : list (option Z)) : list (option Z) :=
  fold_left (fun t p => <[Z.to_nat (fst p) := Some (snd p)]> t) (combine idxs feeds) t.

Definition release (fs : Slots) (idx : Z) : Status * Slots :=
  if (0 <=? idx) && (idx <? Z.of_nat (length (fst fs)))
  then (Status_OK, (<[Z.to_nat idx := None]> (fst fs), snd fs))
  else (Status_ ONNXRUNTIME INVALID_ARGUMENT "invalid index", fs).

Definition get_outputs (fs : Slots) (fetches : list Z) (transfer : bool)
  : Status * list Z * Slots :=
  (Status_OK, map (fun i => default 0 (fst fs !! Z.to_nat i ≫= id)) (snd fs), fs).

#[export] Instance frame : FrameModel := {|
  OrtValue := Z;
  FetchAllocators := unit;
  FrameState := Slots;
  IsTensor := fun _ => true;
  NewFrame := fun feed_idxs feeds fetch_idxs _ _ =>
    (put_feeds feed_idxs feeds (replicate 8 None), fetch_idxs);
  UpdateFeedAndFetches := fun feed_idxs feeds fetch_idxs _ fs =>
    (put_feeds feed_idxs feeds (fst fs), fetch_idxs);
  GetOutputs := get_outputs;
  ReleaseMLValue := release;
  HasMemoryPatternPlanner := fun _ => false;
  GeneratePatterns := fun _ => Status_OK;
|}.

(** The fence of slot [i], present once the slot holds a value. *)
Definition slot_fence (fenced : bool) (i : nat) (fs : Slots) : option Fence_t :=
  if fenced then match fst fs !! i with Some (Some _) => Some i | _ => None end else None.

(** A kernel reading slot [i] and writing its successor to slot [o]. *)
Definition incr_compute (i o : nat) (fs : Slots) : ComputeResult * Slots :=
  match fst fs !! i with
  | Some (Some v) => (Returns Status_OK, (<[o := Some (v + 1)]> (fst fs), snd fs))
  | _ => (Returns (Status_ ONNXRUNTIME FAIL "missing input"), fs)
  end.

Definition kernel (name : string) (fenced : bool) (i o : nat)
    (compute : Slots -> ComputeResult * Slots) : OpKernel :=
  {| OpName := name; ExecQueueId := 0;
     InputMemoryType := fun j => if Nat.eqb j 0 then OrtMemTypeCPUInput else OrtMemTypeDefault;
     AllocateInputsContiguously := false;
     GetExecutionProviderType := "CUDAExecutionProvider";
     Compute := compute;
     InputCount := 1; ImplicitInputCount := 0; OutputCount := 1;
     InputFence := fun fs j => if Nat.eqb j 0 then slot_fence fenced i fs else None;
     ImplicitInputFence := fun _ _ => None;
     OutputFence := fun fs j => if Nat.eqb j 0 then slot_fence fenced o fs else None;
     VerifyInputTensorsAllocatedContiguously := fun _ => Status_OK |}.

Definition incr_kernel (i o : nat) : OpKernel := kernel "Incr" false i o (incr_compute i o).
Definition fenced_incr_kernel (i o : nat) : OpKernel := kernel "Incr" true i o (incr_compute i o).
(** The suspension operator, passing slot [i] on to slot [o]. *)
Definition yield_compute (i o : nat) (fs : Slots) : ComputeResult * Slots :=
  match fst fs !! i with
  | Some (Some v) => (Returns Status_OK, (<[o := Some v]> (fst fs), snd fs))
  | _ => (Returns (Status_ ONNXRUNTIME FAIL "missing input"), fs)
  end.
Definition yield_kernel (i o : nat) : OpKernel :=
  kernel "YieldOp" true i o (yield_compute i o).
Definition failing_kernel (i o : nat) : OpKernel :=
  kernel "Incr" true i o (fun fs => (Returns (Status_ ONNXRUNTIME FAIL "bad shape"), fs)).

Definition node_of (i : NodeIndex) : Node :=
  {| Name := String (Ascii.ascii_of_nat (48 + i)) "n"; OpType := "Incr" |}.

(** The plan entries for nodes 0, 1, ... where node [p] frees the slots
    [frees !! p], laid out one range after the other in to_be_freed (an
    empty range has free_to_index = free_from_index - 1). *)
Fixpoint plan_entries (p : nat) (offset : Z) (frees : list (list Z)) : list NodeExecutionPlan :=
  match frees with
  | [] => []
  | f :: rest =>
      {| node_index := p; free_from_index := offset;
         free_to_index := offset + Z.of_nat (length f) - 1 |}
      :: plan_entries (S p) (offset + Z.of_nat (length f)) rest
  end.

(** A session over the given kernels and the slots to free after each. *)
Definition session (nodes : list (option OpKernel * list Z)) (prune : option (gset NodeIndex))
    (transfer : bool) : SessionState :=
  {| execution_plan := plan_entries 0 0 (map snd nodes);
     to_be_freed := concat (map snd nodes);
     NodeHasFence := fun _ => true;
     GetKernel := fun i => nodes !! i ≫= fst;
     GetNode := node_of;
     GetToBeExecutedNodes := fun _ => prune;
     GetTransferIntermidiateTensorOwnership := transfer;
     UpdateMemoryPatternGroupCache := fun _ => Status_OK |}.

Definition executor (terminate prune : bool) : SequentialExecutor :=
  {| terminate_flag_ := fun _ => terminate;
     only_execute_path_to_fetches_ := prune;
     ORT_MINIMAL_BUILD := false;
     ENABLE_TRAINING := true |}.

(** Modelled from the spec: DEFAULT_RUN_ID and DEFAULT_PARTIAL_RUN_ID are
    declared outside the sources; they are two reserved sentinels, one for
    "no partial-run semantics" and one for "start a new partial run", and
    explicit identifiers are not negative.  The sample runs use -1 and -2. *)
Definition DEFAULT_RUN_ID : Z := -1.
Definition DEFAULT_PARTIAL_RUN_ID : Z := -2.

Definition no_runs : GraphRuns := {| graph_runs_ := ∅; graph_runs_counter_ := 0 |}.

(** Feed 10 into slot 0, fetch slot 3. *)
Definition run (e : SequentialExecutor) (ss : SessionState) (runs : GraphRuns) (run_id : Z)
  : ExecuteResult :=
  Execute DEFAULT_RUN_ID DEFAULT_PARTIAL_RUN_ID e ss runs [0] [10] [3] [] tt run_id.

(** Three nodes in a chain, each freeing its input; nothing pruned. *)
Definition chain3 : SessionState :=
  session [(Some (incr_kernel 0 1), [0]); (Some (incr_kernel 1 2), [1]);
           (Some (incr_kernel 2 3), [2])] None false.

(** Node 1 computes slot 2 from slot 0, a side branch that the fetch of
    slot 3 does not need; it is the last consumer of slot 0 and frees it
    together with its own unused output. *)
Definition side_branch : SessionState :=
  session [(Some (incr_kernel 0 1), []); (Some (incr_kernel 0 2), [0; 2]);
           (Some (incr_kernel 1 3), [1])]
    (Some {[0%nat; 2%nat]}) false.

Definition full_run_chain3 : ExecuteResult :=
  run (executor false false) chain3 no_runs DEFAULT_RUN_ID.

Definition full_run_side_branch : ExecuteResult :=
  run (executor false true) side_branch no_runs DEFAULT_RUN_ID.

(** The kernel of node 1 reports a failure. *)
Definition failing_chain : SessionState :=
  session [(Some (fenced_incr_kernel 0 1), [0]); (Some (failing_kernel 1 2), [1]);
           (Some (incr_kernel 2 3), [2])]
    None false.

Definition fed_frame : FrameState := NewFrame [0] [10] [3] [] tt.

Definition full_run_failing_chain : ExecuteResult :=
  run (executor false false) failing_chain no_runs DEFAULT_RUN_ID.

Definition full_run_terminated : ExecuteResult :=
  run (executor true false) chain3 no_runs DEFAULT_RUN_ID.

(** Five nodes, the one at position 2 being the suspension operator. *)
Definition yield_kernels : list (option OpKernel * list Z) :=
  [(Some (incr_kernel 0 1), [0]); (Some (incr_kernel 1 2), [1]);
   (Some (yield_kernel 2 4), [2]);
   (Some (incr_kernel 4 5), [4]); (Some (incr_kernel 5 3), [5])].

Definition yield_at_2 (transfer : bool) : SessionState := session yield_kernels None transfer.

Definition new_partial_run (transfer : bool) : ExecuteResult :=
  run (executor false false) (yield_at_2 transfer) no_runs DEFAULT_PARTIAL_RUN_ID.

(** One node, ownership transfer enabled: a new partial run, then a second
    call with the identifier the first one returned. *)
Definition one_node : SessionState := session [(Some (incr_kernel 0 3), [0])] None true.

Definition one_node_first : ExecuteResult :=
  run (executor false false) one_node no_runs DEFAULT_PARTIAL_RUN_ID.

Definition one_node_second : ExecuteResult :=
  run (executor false false) one_node (runs_after one_node_first) (run_id_after one_node_first).

(** The run counter has reached the largest 64-bit value. *)
Definition exhausted_runs : GraphRuns := {| graph_runs_ := ∅; graph_runs_counter_ := INT64_MAX |}.

Definition run_after_exhaustion : ExecuteResult :=
  run (executor false false) chain3 exhausted_runs DEFAULT_PARTIAL_RUN_ID.

(** Windows of a partial run until it is complete. *)
Definition drive (ss : SessionState) : Drive :=
  partial_run_to_completion DEFAULT_RUN_ID DEFAULT_PARTIAL_RUN_ID (executor false false) ss
    (length (execution_plan ss)) no_runs [0] [10] [3] [] tt.

(** Three nodes ending in the suspension operator, ownership transfer
    enabled. *)
Definition yield_last : SessionState :=
  session [(Some (incr_kernel 0 1), [0]); (Some (incr_kernel 1 2), [1]);
           (Some (yield_kernel 2 3), [2])] None true.

End Sample.


(** ** The profiling helpers of sequential_executor.cc

    CalculateTotalOutputSizes and CalculateTotalInputSizes (lines 59-119)
    add up tensor sizes in size_t variables; [size_bits] is the width of
    size_t on the platform. *)

Definition size_t_modulus (size_bits : nat) : Z := 2 ^ Z.of_nat size_bits.

(** [x + y] on size_t, wrap-around written out. *)
Definition size_t_add (size_bits : nat) (x y : Z) : Z := (x + y) mod size_t_modulus size_bits.

Section Profiling.
Context `{FM : FrameModel}.
Variable size_bits : nat.
Variable Tensor : Type.
Variable Get_Tensor : OrtValue -> Tensor.   (* p_value->Get<Tensor>() *)
Variable SizeInBytes : Tensor -> Z.         (* tensor.SizeInBytes() *)

(** Lines 59-80; [GetOutputMLValue i] is [None] for nullptr.  The result is
    the final value of total_output_sizes. *)
Definition CalculateTotalOutputSizes (OutputCount : nat)
    (GetOutputMLValue : nat -> option OrtValue) : Z :=
  fold_left (fun total_output_sizes i =>
    match GetOutputMLValue i with
    | Some p_output =>
        if IsTensor p_output
        then size_t_add size_bits total_output_sizes (SizeInBytes (Get_Tensor p_output))
        else total_output_sizes
    | None => total_output_sizes
    end) (seq 0 OutputCount) 0.

(** Lines 82-119; [TryGetConstantInput i] is the constant tensor when the
    input is a constant initializer.  The result is the pair
    (input_activation_sizes, input_parameter_sizes). *)
Definition CalculateTotalInputSizes (InputCount : nat)
    (GetInputMLValue : nat -> option OrtValue)
    (TryGetConstantInput : nat -> option Tensor) : Z * Z :=
  fold_left (fun sizes i =>
    match GetInputMLValue i with
    | Some p_input =>
        if IsTensor p_input then
          match TryGetConstantInput i with
          | Some p_tensor =>
              (fst sizes, size_t_add size_bits (snd sizes) (SizeInBytes p_tensor))
          | None =>
              (size_t_add size_bits (fst sizes) (SizeInBytes (Get_Tensor p_input)), snd sizes)
          end
        else sizes
    | None => sizes
    end) (seq 0 InputCount) (0, 0).

(** The size an output contributes: that of a non-null tensor. *)
Definition output_size (GetOutputMLValue : nat -> option OrtValue) (i : nat) : Z :=
  match GetOutputMLValue i with
  | Some p_output => if IsTensor p_output then SizeInBytes (Get_Tensor p_output) else 0
  | None => 0
  end.

(** The size an input contributes as an activation, and as a parameter. *)
Definition activation_size (GetInputMLValue : nat -> option OrtValue)
    (TryGetConstantInput : nat -> option Tensor) (i : nat) : Z :=
  match GetInputMLValue i, TryGetConstantInput i with
  | Some p_input, None => if IsTensor p_input then SizeInBytes (Get_Tensor p_input) else 0
  | _, _ => 0
  end.

Definition parameter_size (GetInputMLValue : nat -> option OrtValue)
    (TryGetConstantInput : nat -> option Tensor) (i : nat) : Z :=
  match GetInputMLValue i, TryGetConstantInput i with
  | Some p_input, Some p_tensor => if IsTensor p_input then SizeInBytes p_tensor else 0
  | _, _ => 0
  end.

End Profiling.

(** The sum of a list of integers. *)
Definition sum_Z (l : list Z) : Z := fold_right Z.add 0 l.

(** ** ORTValue of the Objective-C binding

    The second document of src/onnxruntime/contrib_ops/cuda/bert/attention.h
    (from line 34 on): SafeMultiply and tensorDataWithError. *)

Inductive OrtErrorCode :=
| ORT_OK | ORT_FAIL | ORT_INVALID_ARGUMENT | ORT_NO_SUCHFILE | ORT_NO_MODEL
| ORT_ENGINE_ERROR | ORT_RUNTIME_EXCEPTION | ORT_INVALID_PROTOBUF | ORT_MODEL_LOADED
| ORT_NOT_IMPLEMENTED | ORT_INVALID_GRAPH | ORT_EP_FAIL.

(** An Ort::Exception: message and error code. *)
Record OrtException := {
  exception_what : string;
  exception_code : OrtErrorCode;
}.

(** A call that returns a value or throws; the methods catch what is
    thrown, report it through the NSError and return nil. *)
Definition Try (A : Type) : Type := OrtException + A.

Section OrtValueObjC.
Variable size_bits : nat.   (* the width of size_t *)

Definition SIZE_MAX : Z := size_t_modulus size_bits - 1.

(** __builtin_mul_overflow(a, b, &out) on size_t: [out] is the product
    truncated to size_t, and the result tells whether the truncated product
    differs from the exact one. *)
Definition builtin_mul_overflow (a b : Z) : bool * Z :=
  let out := (a * b) mod size_t_modulus size_bits in
  (negb (out =? a * b), out).

(** Lines 82-84: the returned flag and the final value of [out]. *)
Definition SafeMultiply (a b : Z) : bool * Z :=
  let '(overflow, out) := builtin_mul_overflow a b in
  (negb overflow, out).

Variable ElementType : Type.
Variable RawData : Type.

(** Lines 143-161.  [tensorTypeAndShapeInfo]: what
    _typeInfo->GetTensorTypeAndShapeInfo() gives, as element count and
    element type; [SizeOfCAPITensorElementType]: the size of an element;
    [GetTensorMutableData]: the data pointer of the value.  The result is the
    pointer and length of the NSMutableData returned. *)
Definition tensorDataWithError
    (tensorTypeAndShapeInfo : Try (Z * ElementType))
    (SizeOfCAPITensorElementType : ElementType -> Try Z)
    (GetTensorMutableData : Try RawData) : Try (RawData * Z) :=
  match tensorTypeAndShapeInfo with
  | inl e => inl e
  | inr (elementCount, elementType) =>
      match SizeOfCAPITensorElementType elementType with
      | inl e => inl e
      | inr elementSize =>
          match SafeMultiply elementCount elementSize with
          | (false, _) =>
              inl {| exception_what := "failed to compute tensor data length";
                     exception_code := ORT_RUNTIME_EXCEPTION |}
          | (true, rawDataLength) =>
              match GetTensorMutableData with
              | inl e => inl e
              | inr rawData => inr (rawData, rawDataLength)
              end
          end
      end
  end.

End OrtValueObjC.

(** ** More sample sessions *)

Section ScanVocabulary.
Context `{FM : FrameModel}.

(** Position [p] of the plan holds a kernel whose operator is, or is not,
    YieldOp. *)
Definition yield_at (ss : SessionState) (p : nat) (is_yield : bool) : Prop :=
  exists nep k,
    execution_plan ss !! p = Some nep
    /\ GetKernel ss (node_index nep) = Some k
    /\ String.eqb (OpName k) "YieldOp" = is_yield.

End ScanVocabulary.

Module MoreSamples.
Import Sample.

(** The termination flag is seen set from program counter [n] on. *)
Definition executor_terminated_from (n : nat) : SequentialExecutor :=
  {| terminate_flag_ := fun pc => Nat.leb n pc;
     only_execute_path_to_fetches_ := false;
     ORT_MINIMAL_BUILD := false;
     ENABLE_TRAINING := true |}.

(** Node 1 has no kernel. *)
Definition missing_kernel : SessionState :=
  session [(Some (incr_kernel 0 1), [0]); (None, [1]); (Some (incr_kernel 2 3), [2])]
    None false.

(** A kernel that wants contiguous inputs, over inputs that are not. *)
Definition contiguous_kernel (i o : nat) : OpKernel :=
  {| OpName := "Incr"; ExecQueueId := 0;
     InputMemoryType := fun _ => OrtMemTypeDefault;
     AllocateInputsContiguously := true;
     GetExecutionProviderType := "CUDAExecutionProvider";
     Compute := incr_compute i o;
     InputCount := 1; ImplicitInputCount := 0; OutputCount := 1;
     InputFence := fun fs j => if Nat.eqb j 0 then slot_fence true i fs else None;
     ImplicitInputFence := fun _ _ => None;
     OutputFence := fun fs j => if Nat.eqb j 0 then slot_fence true o fs else None;
     VerifyInputTensorsAllocatedContiguously :=
       fun _ => Status_ ONNXRUNTIME FAIL "inputs are not contiguous" |}.

Definition not_contiguous : SessionState :=
  session [(Some (incr_kernel 0 1), [0]); (Some (contiguous_kernel 1 2), [1]);
           (Some (incr_kernel 2 3), [2])] None false.

(** Node 0 is to free slots 0, 9 and 1; the frame has no slot 9. *)
Definition bad_free_list : SessionState :=
  session [(Some (incr_kernel 0 1), [0; 9; 1]); (Some (incr_kernel 1 2), [])] None false.


(** The frame after node 0 of the chains above has run. *)
Definition after_node_0 : FrameState :=
  ([None; Some 11; None; None; None; None; None; None], [3]).

(** A registry holding, under identifier 0, a run suspended at cursor 3 of
    the five-node plan with ownership transfer, and an unrelated run under
    identifier 7. *)
Definition two_runs : GraphRuns :=
  {| graph_runs_ :=
       <[7 := {| state := fed_frame; program_counter_ := 1 |}]>
         (graph_runs_ (runs_after (new_partial_run true)));
     graph_runs_counter_ := 8 |}.

Definition resume_of_two_runs : ExecuteResult :=
  run (executor false false) (yield_at_2 true) two_runs 0.

Definition new_run_failing_chain : ExecuteResult :=
  run (executor false false) failing_chain no_runs DEFAULT_PARTIAL_RUN_ID.

End MoreSamples.

(** ** Properties of the event vocabulary *)

Lemma computes_app (a b : list Event) : computes (a ++ b) = computes a ++ computes b.
Proof. apply omap_app. Qed.

Lemma releases_app (a b : list Event) : releases (a ++ b) = releases a ++ releases b.
Proof. apply omap_app. Qed.

Lemma fence_events_computes (evs : list Event) :
  Forall (fun e => is_fence_event e = true) evs -> computes evs = [].
Proof.
  induction 1 as [|e evs He _ IH]; [reflexivity|].
  destruct e; try discriminate He; exact IH.
Qed.

Lemma fence_events_releases (evs : list Event) :
  Forall (fun e => is_fence_event e = true) evs -> releases evs = [].
Proof.
  induction 1 as [|e evs He _ IH]; [reflexivity|].
  destruct e; try discriminate He; exact IH.
Qed.

Lemma fence_events_not_registry (evs : list Event) :
  Forall (fun e => is_fence_event e = true) evs ->
  Forall (fun e => is_registry_event e = false) evs.
Proof.
  induction 1 as [|e evs He _ IH]; constructor; [|exact IH].
  destruct e; try discriminate He; reflexivity.
Qed.

Lemma computes_release_values (l : list Z) : computes (map ReleaseValue l) = [].
Proof. induction l; [reflexivity|assumption]. Qed.

Lemma releases_release_values (l : list Z) : releases (map ReleaseValue l) = l.
Proof. induction l as [|x l IH]; [reflexivity|]. cbn. unfold releases in IH. now rewrite IH. Qed.

Lemma release_values_not_registry (l : list Z) :
  Forall (fun e => is_registry_event e = false) (map ReleaseValue l).
Proof. induction l; constructor; [reflexivity|assumption]. Qed.

Lemma flat_map_fence_events {A} (f : A -> list Event) (l : list A) :
  (forall x, Forall (fun e => is_fence_event e = true) (f x)) ->
  Forall (fun e => is_fence_event e = true) (flat_map f l).
Proof.
  intros Hf. induction l as [|x l IH]; cbn; [constructor|].
  apply Forall_app; split; [apply Hf|exact IH].
Qed.

Lemma flat_map_lookup_seq {A B} (f : A -> list B) (l : list A) :
  flat_map (fun pc => match l !! pc with Some x => f x | None => [] end) (seq 0 (length l))
  = flat_map f l.
Proof.
  induction l as [|x l IH]; [reflexivity|].
  cbn [length seq flat_map]. f_equal.
  etransitivity; [|exact IH].
  rewrite <- seq_shift, !flat_map_concat_map, map_map. reflexivity.
Qed.

Lemma flat_map_hooks (g : nat -> option Fence_t) (h : nat -> Fence_t -> Event) (l : list nat) :
  flat_map (fun i => match g i with Some f => [h i f] | None => [] end) l
  = omap (fun i => h i <$> g i) l.
Proof.
  induction l as [|i l IH]; [reflexivity|].
  cbn [flat_map omap list_omap]. rewrite IH. destruct (g i); reflexivity.
Qed.

Lemma omap_flat_map {A B C} (f : B -> option C) (g : A -> list B) (l : list A) :
  flat_map (fun x => omap f (g x)) l = omap f (flat_map g l).
Proof.
  induction l as [|x l IH]; [reflexivity|].
  cbn [flat_map]. now rewrite omap_app, IH.
Qed.

Lemma NoDup_omap_inj {A B} (f : A -> option B) (l : list A) :
  NoDup l ->
  (forall x y v, In x l -> In y l -> f x = Some v -> f y = Some v -> x = y) ->
  NoDup (omap f l).
Proof.
  induction 1 as [|x l Hx Hl IH]; intros Hinj; cbn [omap list_omap]; [constructor|].
  assert (NoDup (omap f l)) as Hrec.
  { apply IH. intros a b v Ha Hb. apply Hinj; now right. }
  destruct (f x) as [v|] eqn:Ef; [|exact Hrec].
  constructor; [|exact Hrec].
  intros Hin. apply Hx.
  apply list_elem_of_omap in Hin. destruct Hin as (y & Hy & Hfy).
  rewrite (Hinj x y v); [exact Hy| now left | right; now apply list_elem_of_In | exact Ef | exact Hfy].
Qed.

Section Properties.
Context `{FM : FrameModel}.
Variables (DEFAULT_RUN_ID DEFAULT_PARTIAL_RUN_ID : Z).
Variable ex : SequentialExecutor.
Variable ss : SessionState.

Lemma sync_before_fence_events n k fs :
  Forall (fun e => is_fence_event e = true) (sync_before ss n k fs).
Proof.
  unfold sync_before. destruct (NodeHasFence ss n); [|constructor].
  repeat (apply Forall_app; split);
    apply flat_map_fence_events; intros i;
    [destruct (InputFence k fs i)|destruct (ImplicitInputFence k fs i)|destruct (OutputFence k fs i)];
    repeat constructor.
Qed.

Lemma sync_after_fence_events n k fs :
  Forall (fun e => is_fence_event e = true) (sync_after ss n k fs).
Proof.
  unfold sync_after. destruct (NodeHasFence ss n); [|constructor].
  repeat (apply Forall_app; split);
    apply flat_map_fence_events; intros i;
    [destruct (InputFence k fs i)|destruct (ImplicitInputFence k fs i)|destruct (OutputFence k fs i)];
    repeat constructor.
Qed.

Lemma positions_S i n : positions i (S n) = i :: positions (i + 1) n.
Proof.
  unfold positions. cbn [seq map]. f_equal; [lia|].
  rewrite <- seq_shift, map_map. apply map_ext. intros j. lia.
Qed.

(** A release loop that returns success has released the listed slots of
    all its positions, in order. *)
Lemma release_from_ok n : forall i fs fs' evs,
  release_from ss n i fs = (Returned Status_OK, fs', evs) ->
  evs = map ReleaseValue (omap (to_be_freed_at ss) (positions i n))
  /\ length (omap (to_be_freed_at ss) (positions i n)) = n.
Proof.
  induction n as [|n IH]; intros i fs fs' evs H.
  - cbn in H. inversion H. split; reflexivity.
  - rewrite positions_S. cbn [release_from] in H. cbn [omap list_omap].
    destruct (to_be_freed_at ss i) as [v|]; [|discriminate H].
    destruct (ReleaseMLValue fs v) as [st fs1].
    destruct st as [|c cd m]; [|inversion H].
    destruct (release_from ss n (i + 1) fs1) as [[r fs2] ev2] eqn:E.
    inversion H; subst. destruct (IH _ _ _ _ E) as [-> Hl].
    split; [reflexivity|cbn; now rewrite Hl].
Qed.

Lemma release_from_events n : forall i fs o fs' evs,
  release_from ss n i fs = (o, fs', evs) -> exists l, evs = map ReleaseValue l.
Proof.
  induction n as [|n IH]; intros i fs o fs' evs H.
  - cbn in H. inversion H. now exists [].
  - cbn [release_from] in H.
    destruct (to_be_freed_at ss i) as [v|]; [|inversion H; now exists []].
    destruct (ReleaseMLValue fs v) as [st fs1].
    destruct st as [|c cd m]; [|inversion H; now exists [v]].
    destruct (release_from ss n (i + 1) fs1) as [[r fs2] ev2] eqn:E.
    inversion H; subst. destruct (IH _ _ _ _ _ E) as [l ->]. now exists (v :: l).
Qed.

Lemma positions_length i n : length (positions i n) = n.
Proof. unfold positions. now rewrite length_map, length_seq. Qed.

Lemma ReleaseNodeMLValues_ok fs nep fs' evs :
  ReleaseNodeMLValues ss fs nep = (Returned Status_OK, fs', evs) ->
  evs = map ReleaseValue (freed_slots ss nep)
  /\ length (freed_slots ss nep) = length (free_positions nep).
Proof.
  intros H. apply release_from_ok in H. destruct H as [H1 H2].
  split; [exact H1|]. unfold free_positions. now rewrite positions_length.
Qed.

Lemma try_compute_events n k fs r fs' evs :
  try_compute ex n k fs = (r, fs', evs) ->
  match r with inl _ => evs = [] /\ fs' = fs | inr _ => evs = [KernelCompute n] end.
Proof.
  unfold try_compute.
  destruct (IsOK _).
  - destruct (Compute k fs) as [[s|w] fs1]; intros H; inversion H; reflexivity.
  - intros H; inversion H; split; reflexivity.
Qed.

(** An iteration that falls through to the next one either was pruned,
    and did nothing, or is a complete node visit. *)
Lemma execute_node_Next fetch pc fs fs' evs :
  execute_node ex ss fetch pc fs = (Next, fs', evs) ->
  exists nep,
    execution_plan ss !! pc = Some nep
    /\ terminate_flag_ ex pc = false
    /\ ((node_is_pruned ex ss fetch (node_index nep) = true /\ fs' = fs /\ evs = [])
        \/ (node_is_pruned ex ss fetch (node_index nep) = false /\ node_block ss nep evs)).
Proof.
  unfold execute_node. intros H.
  destruct (execution_plan ss !! pc) as [nep|]; [|discriminate H].
  exists nep. split; [reflexivity|].
  destruct (terminate_flag_ ex pc); [discriminate H|]. split; [reflexivity|].
  destruct (node_is_pruned ex ss fetch (node_index nep)).
  { inversion H. left. auto. }
  right. split; [reflexivity|].
  destruct (GetKernel ss (node_index nep)) as [k|]; [|discriminate H].
  destruct (try_compute ex (node_index nep) k fs) as [[[s|cs] fs1] evc] eqn:Etc;
    [discriminate H|].
  apply try_compute_events in Etc. subst evc.
  destruct (IsOK cs); [|discriminate H].
  destruct (ReleaseNodeMLValues ss fs1 nep) as [[o fs2] evr] eqn:Er.
  destruct o as [st| |]; try discriminate H.
  destruct st; [|discriminate H].
  inversion H; subst. apply ReleaseNodeMLValues_ok in Er. destruct Er as [-> Hlen].
  exists (sync_before ss (node_index nep) k fs), (sync_after ss (node_index nep) k fs1).
  split; [reflexivity|].
  split; [apply sync_before_fence_events|]. split; [apply sync_after_fence_events|exact Hlen].
Qed.

(** No iteration touches the run registry. *)
Lemma execute_node_no_registry fetch pc fs fl fs' evs :
  execute_node ex ss fetch pc fs = (fl, fs', evs) ->
  Forall (fun e => is_registry_event e = false) evs.
Proof.
  unfold execute_node. intros H.
  destruct (execution_plan ss !! pc) as [nep|]; [|inversion H; constructor].
  destruct (terminate_flag_ ex pc); [inversion H; constructor|].
  destruct (node_is_pruned ex ss fetch (node_index nep)); [inversion H; constructor|].
  destruct (GetKernel ss (node_index nep)) as [k|]; [|inversion H; constructor].
  pose proof (fence_events_not_registry _ (sync_before_fence_events (node_index nep) k fs)) as Hb.
  destruct (try_compute ex (node_index nep) k fs) as [[[s|cs] fs1] evc] eqn:Etc;
    apply try_compute_events in Etc.
  { destruct Etc as [-> _]. inversion H. now rewrite app_nil_r. }
  subst evc.
  assert (Forall (fun e => is_registry_event e = false)
            (sync_before ss (node_index nep) k fs ++ [KernelCompute (node_index nep)])) as Hbc.
  { apply Forall_app; split; [exact Hb|repeat constructor]. }
  destruct (IsOK cs); [|inversion H; exact Hbc].
  pose proof (fence_events_not_registry _ (sync_after_fence_events (node_index nep) k fs1)) as Ha.
  destruct (ReleaseNodeMLValues ss fs1 nep) as [[o fs2] evr] eqn:Er.
  destruct (release_from_events _ _ _ _ _ _ Er) as [l ->].
  assert (evs = sync_before ss (node_index nep) k fs ++ [KernelCompute (node_index nep)]
                ++ sync_after ss (node_index nep) k fs1 ++ map ReleaseValue l) as ->.
  { destruct o as [[|]| |]; inversion H; reflexivity. }
  repeat (apply Forall_app; split); auto using release_values_not_registry.
Qed.

Lemma execute_nodes_no_registry fetch pcs : forall fs fl fs' evs,
  execute_nodes ex ss fetch pcs fs = (fl, fs', evs) ->
  Forall (fun e => is_registry_event e = false) evs.
Proof.
  induction pcs as [|pc pcs IH]; intros fs fl fs' evs H; cbn in H.
  - inversion H. constructor.
  - destruct (execute_node ex ss fetch pc fs) as [[f1 fs1] ev1] eqn:E1.
    apply execute_node_no_registry in E1.
    destruct f1; [|inversion H; subst; exact E1].
    destruct (execute_nodes ex ss fetch pcs fs1) as [[f2 fs2] ev2] eqn:E2.
    inversion H; subst. apply Forall_app; split; [exact E1|eapply IH; exact E2].
Qed.

Lemma Execute_range_no_registry feeds fetch fs a b o fs' evs :
  Execute_range ex ss feeds fetch fs a b = (o, fs', evs) ->
  Forall (fun e => is_registry_event e = false) evs.
Proof.
  unfold Execute_range.
  destruct (execute_nodes ex ss fetch (seq a (b - a)) fs) as [[fl fs1] ev1] eqn:E.
  apply execute_nodes_no_registry in E.
  destruct fl; intros H; inversion H; subst; exact E.
Qed.

(** A loop that runs to its end is a sequence of node visits, one for
    each entry that pruning keeps, in program-counter order. *)
Lemma execute_nodes_Next fetch pcs : forall fs fs' evs,
  execute_nodes ex ss fetch pcs fs = (Next, fs', evs) ->
  exists blks, evs = concat blks /\ Forall2 (node_block ss) (kept_entries ex ss fetch pcs) blks.
Proof.
  induction pcs as [|pc pcs IH]; intros fs fs' evs H; cbn in H.
  - inversion H. exists []. split; [reflexivity|constructor].
  - destruct (execute_node ex ss fetch pc fs) as [[f1 fs1] ev1] eqn:E1.
    destruct f1; [|discriminate H].
    destruct (execute_nodes ex ss fetch pcs fs1) as [[f2 fs2] ev2] eqn:E2.
    inversion H; subst.
    destruct (IH _ _ _ E2) as (blks & -> & HF).
    apply execute_node_Next in E1. destruct E1 as (nep & Hl & _ & Hc).
    unfold kept_entries. cbn [flat_map]. rewrite Hl.
    destruct Hc as [(Hp & _ & ->)|(Hp & Hb)]; rewrite Hp.
    + exists blks. split; [reflexivity|exact HF].
    + exists (ev1 :: blks). split; [reflexivity|]. constructor; assumption.
Qed.

Lemma node_blocks_computes neps : forall blks,
  Forall2 (node_block ss) neps blks -> computes (concat blks) = map node_index neps.
Proof.
  induction 1 as [|nep blk neps blks (pre & post & -> & Hpre & Hpost & _) _ IH]; [reflexivity|].
  cbn [concat map]. rewrite computes_app, IH, computes_app.
  rewrite (fence_events_computes _ Hpre). cbn.
  change (omap computed_node (post ++ map ReleaseValue (freed_slots ss nep)))
    with (computes (post ++ map ReleaseValue (freed_slots ss nep))).
  now rewrite computes_app, (fence_events_computes _ Hpost), computes_release_values.
Qed.

Lemma node_blocks_releases neps : forall blks,
  Forall2 (node_block ss) neps blks ->
  releases (concat blks) = flat_map (freed_slots ss) neps.
Proof.
  induction 1 as [|nep blk neps blks (pre & post & -> & Hpre & Hpost & _) _ IH]; [reflexivity|].
  cbn [concat flat_map]. rewrite releases_app, IH, releases_app.
  rewrite (fence_events_releases _ Hpre). cbn.
  change (omap released_slot (post ++ map ReleaseValue (freed_slots ss nep)))
    with (releases (post ++ map ReleaseValue (freed_slots ss nep))).
  now rewrite releases_app, (fence_events_releases _ Hpost), releases_release_values.
Qed.

(** Over the whole plan the kept entries are the plan filtered. *)
Lemma kept_entries_all fetch :
  kept_entries ex ss fetch (seq 0 (length (execution_plan ss)))
  = List.filter (fun nep => negb (node_is_pruned ex ss fetch (node_index nep)))
      (execution_plan ss).
Proof.
  unfold kept_entries. rewrite flat_map_lookup_seq.
  induction (execution_plan ss) as [|x l IH]; [reflexivity|].
  cbn [flat_map List.filter]. rewrite IH.
  destruct (node_is_pruned ex ss fetch (node_index x)); reflexivity.
Qed.

(** An iteration never leaves Execute with an OK status. *)
Lemma execute_node_Exit_not_ok fetch pc fs fs' evs :
  execute_node ex ss fetch pc fs <> (Exit (Returned Status_OK), fs', evs).
Proof.
  unfold execute_node. intros E1.
  destruct (execution_plan ss !! pc) as [nep|]; [|discriminate E1].
  destruct (terminate_flag_ ex pc); [discriminate E1|].
  destruct (node_is_pruned ex ss fetch (node_index nep)); [discriminate E1|].
  destruct (GetKernel ss (node_index nep)) as [k|]; [|discriminate E1].
  destruct (try_compute ex (node_index nep) k fs) as [[[s|cs] fs2] evc] eqn:Etc.
  - unfold try_compute in Etc.
    destruct (IsOK (if ENABLE_TRAINING ex && AllocateInputsContiguously k
                    then VerifyInputTensorsAllocatedContiguously k fs else Status_OK)) eqn:Ev.
    + destruct (Compute k fs) as [[?|?] ?]; discriminate Etc.
    + inversion Etc as [[Hs Hf He]]. inversion E1 as [[Hs1 Hf1 He1]].
      rewrite Hs, Hs1 in Ev. discriminate Ev.
  - destruct (IsOK cs) eqn:Ecs.
    + destruct (ReleaseNodeMLValues ss fs2 nep) as [[[[|]| |] ?] ?]; discriminate E1.
    + discriminate E1.
Qed.

Lemma execute_nodes_Exit_not_ok fetch pcs : forall fs fs' evs,
  execute_nodes ex ss fetch pcs fs <> (Exit (Returned Status_OK), fs', evs).
Proof.
  induction pcs as [|pc pcs IH]; intros fs fs' evs E; cbn in E; [discriminate E|].
  destruct (execute_node ex ss fetch pc fs) as [[f1 fs1] ev1] eqn:E1.
  destruct f1 as [|o1].
  - destruct (execute_nodes ex ss fetch pcs fs1) as [[f2 fs2] ev2] eqn:E2.
    inversion E; subst. exact (IH _ _ _ E2).
  - inversion E; subst. exact (execute_node_Exit_not_ok _ _ _ _ _ E1).
Qed.

Lemma Execute_range_ok feeds fetch fs a b fs' evs :
  Execute_range ex ss feeds fetch fs a b = (Returned Status_OK, fs', evs) ->
  execute_nodes ex ss fetch (seq a (b - a)) fs = (Next, fs', evs).
Proof.
  unfold Execute_range.
  destruct (execute_nodes ex ss fetch (seq a (b - a)) fs) as [[fl fs1] ev1] eqn:E.
  destruct fl as [|o]; intros H; inversion H; subst; [reflexivity|].
  exfalso. exact (execute_nodes_Exit_not_ok _ _ _ _ _ E).
Qed.

(** The kernels invoked by a full run that returns success. *)
Lemma full_run_ok_computes runs feed_idxs feeds fetch_idxs fetches allocs :
  let r := Execute DEFAULT_RUN_ID DEFAULT_PARTIAL_RUN_ID ex ss runs
             feed_idxs feeds fetch_idxs fetches allocs DEFAULT_RUN_ID in
  result r = Returned Status_OK ->
  computes (events r)
  = map node_index (kept_entries ex ss fetch_idxs (seq 0 (length (execution_plan ss)))).
Proof.
  cbv zeta. unfold Execute. rewrite Z.eqb_refl.
  destruct (Execute_range ex ss feeds fetch_idxs _ 0 (length (execution_plan ss)))
    as [[o fs1] ev1] eqn:E.
  destruct o as [[|c cd m]|w|]; try (intros H; discriminate H).
  destruct (GetOutputs fs1 fetches _) as [[st2 f2] fs2]. intros _.
  cbn [events]. apply Execute_range_ok in E. rewrite Nat.sub_0_r in E.
  apply execute_nodes_Next in E. destruct E as (blks & -> & HF).
  now apply node_blocks_computes.
Qed.

(** C1 (amended). A full run (run_id = DEFAULT_RUN_ID) never touches the run
    registry, whatever its outcome; when it returns success, the kernels
    invoked are, in ascending program-counter order and once each, those of
    the plan entries that path pruning keeps, hence of every entry of
    [0, plan_size) when nothing is pruned. *)
Theorem full_run_visits_kept_entries
    (runs : GraphRuns) (feed_idxs : list Z) (feeds : list OrtValue)
    (fetch_idxs : list Z) (fetches : list OrtValue) (allocs : FetchAllocators) :
  let r := Execute DEFAULT_RUN_ID DEFAULT_PARTIAL_RUN_ID ex ss runs
             feed_idxs feeds fetch_idxs fetches allocs DEFAULT_RUN_ID in
  (runs_after r = runs
   /\ run_id_after r = DEFAULT_RUN_ID
   /\ Forall (fun e => is_registry_event e = false) (events r))
  /\ (result r = Returned Status_OK ->
      computes (events r)
      = map node_index
          (List.filter (fun nep => negb (node_is_pruned ex ss fetch_idxs (node_index nep)))
             (execution_plan ss))
      /\ ((forall nep, In nep (execution_plan ss) ->
             node_is_pruned ex ss fetch_idxs (node_index nep) = false) ->
          computes (events r) = map node_index (execution_plan ss))).
Proof.
  cbn zeta. unfold Execute. rewrite Z.eqb_refl.
  destruct (Execute_range ex ss feeds fetch_idxs _ 0 (length (execution_plan ss)))
    as [[o fs1] ev1] eqn:E.
  pose proof (Execute_range_no_registry _ _ _ _ _ _ _ _ E) as Hreg.
  assert (forall st, o = Returned st -> st = Status_OK ->
          computes ev1 = map node_index
            (List.filter (fun nep => negb (node_is_pruned ex ss fetch_idxs (node_index nep)))
               (execution_plan ss))) as Hc.
  { intros st -> ->. apply Execute_range_ok in E. rewrite Nat.sub_0_r in E.
    apply execute_nodes_Next in E. destruct E as (blks & -> & HF).
    rewrite kept_entries_all in HF. now apply node_blocks_computes. }
  assert (forall l : list NodeExecutionPlan,
            (forall nep, In nep l -> node_is_pruned ex ss fetch_idxs (node_index nep) = false) ->
            List.filter (fun nep => negb (node_is_pruned ex ss fetch_idxs (node_index nep))) l = l)
    as Hall.
  { induction l as [|x l IH]; intros Hl; [reflexivity|]. cbn.
    rewrite (Hl x (or_introl eq_refl)). cbn. f_equal. apply IH. intros; apply Hl; now right. }
  destruct o as [st| |]; cbn [result runs_after run_id_after events].
  - destruct st as [|c cd m]; cbn [result runs_after run_id_after events].
    + destruct (GetOutputs fs1 fetches _) as [[st2 f2] fs2].
      cbn [result runs_after run_id_after events].
      split; [auto|]. intros _. split; [now eapply Hc|].
      intros Hn. rewrite (Hc _ eq_refl eq_refl). now rewrite Hall.
    + split; [auto|]. intros Hr; discriminate Hr.
  - split; [auto|]. intros Hr; discriminate Hr.
  - split; [auto|]. intros Hr; discriminate Hr.
Qed.

Lemma execute_nodes_app fetch a : forall b fs,
  execute_nodes ex ss fetch (a ++ b) fs
  = match execute_nodes ex ss fetch a fs with
    | (Next, fs1, ev1) =>
        let '(fl, fs2, ev2) := execute_nodes ex ss fetch b fs1 in (fl, fs2, ev1 ++ ev2)
    | (Exit o, fs1, ev1) => (Exit o, fs1, ev1)
    end.
Proof.
  induction a as [|pc a IH]; intros b fs; cbn [app execute_nodes].
  - destruct (execute_nodes ex ss fetch b fs) as [[fl fs2] ev2]. reflexivity.
  - destruct (execute_node ex ss fetch pc fs) as [[f1 fs1] ev1].
    destruct f1; [|reflexivity].
    rewrite IH. destruct (execute_nodes ex ss fetch a fs1) as [[f2 fs2] ev2].
    destruct f2; [|reflexivity].
    destruct (execute_nodes ex ss fetch b fs2) as [[f3 fs3] ev3].
    now rewrite app_assoc.
Qed.

Lemma seq_split_at (a pc b : nat) :
  (a <= pc < b)%nat -> seq a (b - a) = seq a (pc - a) ++ pc :: seq (S pc) (b - S pc).
Proof.
  intros H. replace (b - a)%nat with ((pc - a) + S (b - S pc))%nat by lia.
  rewrite seq_app. cbn [seq]. now replace (a + (pc - a))%nat with pc by lia.
Qed.

Lemma seq_join (a e b : nat) :
  (a <= e <= b)%nat -> seq a (e - a) ++ seq e (b - e) = seq a (b - a).
Proof.
  intros H. replace (b - a)%nat with ((e - a) + (b - e))%nat by lia.
  rewrite seq_app. do 2 f_equal. lia.
Qed.

Lemma contains_intro (a sub b : string) : contains sub (a ++ sub ++ b)%string.
Proof. now exists a, b. Qed.

Lemma string_app_assoc (a b c : string) : ((a ++ b) ++ c = a ++ (b ++ c))%string.
Proof.
  induction a as [|ch a IH]; [reflexivity|].
  change (String ch ((a ++ b) ++ c) = String ch (a ++ (b ++ c)))%string.
  f_equal. exact IH.
Qed.

(** C5. If the earlier nodes of a window [start, end) have been visited and
    the kernel of the node at [pc] returns a non-success status or raises an
    exception, then Execute returns a failure whose message contains the
    node's name and op type, the events of the call end with that Compute (no
    later node is visited, no fence is signalled afterwards and the node's
    free range is not released), and the frame is the one the failing
    Compute left. *)
Theorem compute_failure_aborts_window
    (feeds : list OrtValue) (fetch : list Z) (fs : FrameState)
    (start pc end_ : nat) (fs_pc : FrameState) (evs_pre : list Event)
    (nep : NodeExecutionPlan) (k : OpKernel) (cr : ComputeResult) (fs_fail : FrameState) :
  (start <= pc < end_)%nat ->
  execute_nodes ex ss fetch (seq start (pc - start)) fs = (Next, fs_pc, evs_pre) ->
  execution_plan ss !! pc = Some nep ->
  terminate_flag_ ex pc = false ->
  node_is_pruned ex ss fetch (node_index nep) = false ->
  GetKernel ss (node_index nep) = Some k ->
  (ENABLE_TRAINING ex && AllocateInputsContiguously k = true ->
   VerifyInputTensorsAllocatedContiguously k fs_pc = Status_OK) ->
  Compute k fs_pc = (cr, fs_fail) ->
  cr <> Returns Status_OK ->
  exists category code msg,
    Execute_range ex ss feeds fetch fs start end_
    = (Returned (Status_ category code msg), fs_fail,
       evs_pre ++ sync_before ss (node_index nep) k fs_pc ++ [KernelCompute (node_index nep)])
    /\ contains (Name (GetNode ss (node_index nep))) msg
    /\ contains (OpType (GetNode ss (node_index nep))) msg.
Proof.
  intros Hpc Hpre Hnep Hterm Hprune Hk Hverify Hcompute Hfail.
  set (node := GetNode ss (node_index nep)).
  assert (exists cs, try_compute ex (node_index nep) k fs_pc
                     = (inr cs, fs_fail, [KernelCompute (node_index nep)])
                     /\ IsOK cs = false) as (cs & Htc & Hcs).
  { unfold try_compute.
    destruct (ENABLE_TRAINING ex && AllocateInputsContiguously k) eqn:Et.
    - rewrite (Hverify eq_refl). cbn [IsOK]. rewrite Hcompute.
      destruct cr as [s|w]; eexists; (split; [reflexivity|]).
      + destruct s; [congruence|reflexivity].
      + reflexivity.
    - cbn [IsOK]. rewrite Hcompute.
      destruct cr as [s|w]; eexists; (split; [reflexivity|]).
      + destruct s; [congruence|reflexivity].
      + reflexivity. }
  exists (Category cs), (Code cs),
    ("Non-zero status code returned while running " ++ OpType node ++ " node. Name:'"
       ++ Name node ++ "' Status Message: " ++ ErrorMessage cs)%string.
  split; [|split].
  - unfold Execute_range. rewrite (seq_split_at start pc end_ Hpc).
    rewrite execute_nodes_app, Hpre. cbn [execute_nodes].
    unfold execute_node. rewrite Hnep, Hterm, Hprune, Hk, Htc, Hcs.
    reflexivity.
  - rewrite <- (string_app_assoc _ (OpType node)), <- string_app_assoc.
    apply contains_intro.
  - apply contains_intro.
Qed.

(** C6 (amended). If the termination flag is set when a non-empty window
    [start, end) begins, Execute invokes no kernel, signals no fence and
    releases no slot: it makes no call at all, leaves the frame as it was and
    returns the failure (ONNXRUNTIME, FAIL) with the message "Exiting due to
    terminate flag being set to true.".  Category and code are not reserved
    for termination: a missing kernel is reported with the same pair, and so
    is a kernel failure that itself carries ONNXRUNTIME and FAIL. *)
Theorem terminate_flag_aborts_window
    (feeds : list OrtValue) (fetch : list Z) (fs : FrameState) (start end_ : nat) :
  (start < end_)%nat ->
  (start < length (execution_plan ss))%nat ->
  terminate_flag_ ex start = true ->
  Execute_range ex ss feeds fetch fs start end_
  = (Returned (Status_ ONNXRUNTIME FAIL "Exiting due to terminate flag being set to true."),
     fs, [])
  /\ (forall node, Category (null_kernel_status node) = ONNXRUNTIME
                   /\ Code (null_kernel_status node) = FAIL)
  /\ (forall node m, Category (compute_failure_status node (Status_ ONNXRUNTIME FAIL m))
                       = ONNXRUNTIME
                     /\ Code (compute_failure_status node (Status_ ONNXRUNTIME FAIL m)) = FAIL).
Proof.
  intros Hlt Hsize Hterm. split; [|split; intros; split; reflexivity].
  unfold Execute_range.
  replace (end_ - start)%nat with (S (end_ - S start)) by lia.
  cbn [seq execute_nodes]. unfold execute_node.
  destruct (lookup_lt_is_Some_2 (execution_plan ss) start Hsize) as [nep ->].
  rewrite Hterm. reflexivity.
Qed.

(** The execution-provider identity handed to BeforeUsingAsInput for the
    input or implicit input at index [i]. *)
Lemma consumer_provider_type (k : OpKernel) (i : nat) :
  (if OrtMemType_eqb OrtMemTypeCPUInput (InputMemoryType k i)
   then kCpuExecutionProvider else GetExecutionProviderType k)
  = (if decide (InputMemoryType k i = OrtMemTypeCPUInput)
     then kCpuExecutionProvider else GetExecutionProviderType k).
Proof. destruct (InputMemoryType k i); reflexivity. Qed.

Lemma sync_before_hooks n k fs :
  NodeHasFence ss n = true ->
  sync_before ss n k fs
  = hooks (InputCount k) (InputFence k fs)
      (fun i f => BeforeUsingAsInput f
         (if decide (InputMemoryType k i = OrtMemTypeCPUInput)
          then kCpuExecutionProvider else GetExecutionProviderType k) (ExecQueueId k))
    ++ hooks (ImplicitInputCount k) (ImplicitInputFence k fs)
      (fun i f => BeforeUsingAsInput f
         (if decide (InputMemoryType k i = OrtMemTypeCPUInput)
          then kCpuExecutionProvider else GetExecutionProviderType k) (ExecQueueId k))
    ++ hooks (OutputCount k) (OutputFence k fs)
      (fun _ f => BeforeUsingAsOutput f (GetExecutionProviderType k) (ExecQueueId k)).
Proof.
  intros Hf. unfold sync_before. rewrite Hf.
  unfold sync_before_inputs, sync_before_implicit_inputs, sync_before_outputs, hooks.
  rewrite <- !flat_map_hooks. f_equal; [|f_equal].
  - apply flat_map_ext. intros i. destruct (InputFence k fs i); [|reflexivity].
    now rewrite consumer_provider_type.
  - apply flat_map_ext. intros i. destruct (ImplicitInputFence k fs i); [|reflexivity].
    now rewrite consumer_provider_type.
Qed.

Lemma sync_after_hooks n k fs :
  NodeHasFence ss n = true ->
  sync_after ss n k fs
  = hooks (InputCount k) (InputFence k fs) (fun _ f => AfterUsedAsInput f (ExecQueueId k))
    ++ hooks (ImplicitInputCount k) (ImplicitInputFence k fs)
         (fun _ f => AfterUsedAsInput f (ExecQueueId k))
    ++ hooks (OutputCount k) (OutputFence k fs)
         (fun _ f => AfterUsedAsOutput f (ExecQueueId k)).
Proof.
  intros Hf. unfold sync_after. rewrite Hf.
  unfold sync_after_inputs, sync_after_implicit_inputs, sync_after_outputs, hooks.
  now rewrite <- !flat_map_hooks.
Qed.

(** C7 (amended). For a visited node whose plan entry has a fence, the calls
    of the visit are, in this order and once for each index that has a fence:
    BeforeUsingAsInput for the inputs, BeforeUsingAsInput for the implicit
    inputs, BeforeUsingAsOutput for the outputs, then Compute, and then, when
    Compute returned success, AfterUsedAsInput for the inputs,
    AfterUsedAsInput for the implicit inputs, AfterUsedAsOutput for the
    outputs (followed by the releases).  When Compute fails nothing follows
    it, and when the training build's check of contiguous inputs fails the
    visit ends after the before-hooks, with Compute not invoked.  The
    before-hook of the input at index [i] gets the CPU provider exactly when
    InputMemoryType(i) is OrtMemTypeCPUInput, and the kernel's provider
    otherwise; of the before-hook of an implicit input it is only said that it
    gets one of these two identities. *)
Theorem fence_hooks_in_fixed_order
    (fetch : list Z) (pc : nat) (fs : FrameState) (nep : NodeExecutionPlan) (k : OpKernel) :
  execution_plan ss !! pc = Some nep ->
  terminate_flag_ ex pc = false ->
  node_is_pruned ex ss fetch (node_index nep) = false ->
  GetKernel ss (node_index nep) = Some k ->
  NodeHasFence ss (node_index nep) = true ->
  let queue_id := ExecQueueId k in
  let provider i :=
    if decide (InputMemoryType k i = OrtMemTypeCPUInput)
    then kCpuExecutionProvider else GetExecutionProviderType k in
  let inputs_verified :=
    IsOK (if ENABLE_TRAINING ex && AllocateInputsContiguously k
          then VerifyInputTensorsAllocatedContiguously k fs else Status_OK) in
  let after fs1 :=
    hooks (InputCount k) (InputFence k fs1) (fun _ f => AfterUsedAsInput f queue_id)
    ++ hooks (ImplicitInputCount k) (ImplicitInputFence k fs1)
         (fun _ f => AfterUsedAsInput f queue_id)
    ++ hooks (OutputCount k) (OutputFence k fs1) (fun _ f => AfterUsedAsOutput f queue_id) in
  exists implicit_provider : nat -> string,
    (forall i, implicit_provider i = kCpuExecutionProvider
               \/ implicit_provider i = GetExecutionProviderType k)
    /\ exists fl fs' released,
      execute_node ex ss fetch pc fs
      = (fl, fs',
         (hooks (InputCount k) (InputFence k fs)
            (fun i f => BeforeUsingAsInput f (provider i) queue_id)
          ++ hooks (ImplicitInputCount k) (ImplicitInputFence k fs)
               (fun i f => BeforeUsingAsInput f (implicit_provider i) queue_id)
          ++ hooks (OutputCount k) (OutputFence k fs)
               (fun _ f => BeforeUsingAsOutput f (GetExecutionProviderType k) queue_id))
         ++ (if inputs_verified
             then [KernelCompute (node_index nep)]
                    ++ match Compute k fs with
                       | (Returns Status_OK, fs1) => after fs1 ++ map ReleaseValue released
                       | _ => []
                       end
             else [])).
Proof.
  intros Hnep Hterm Hprune Hk Hfence. cbv beta zeta.
  exists (fun i => if decide (InputMemoryType k i = OrtMemTypeCPUInput)
                   then kCpuExecutionProvider else GetExecutionProviderType k).
  split.
  { intros i. destruct (decide (InputMemoryType k i = OrtMemTypeCPUInput)); auto. }
  rewrite <- (sync_before_hooks _ _ _ Hfence).
  unfold execute_node. rewrite Hnep, Hterm, Hprune, Hk. unfold try_compute.
  destruct (IsOK (if ENABLE_TRAINING ex && AllocateInputsContiguously k
                  then VerifyInputTensorsAllocatedContiguously k fs else Status_OK)).
  - destruct (Compute k fs) as [[[|c cd m]|w] fs1]; cbn [IsOK].
    + rewrite <- (sync_after_hooks _ _ _ Hfence).
      destruct (ReleaseNodeMLValues ss fs1 nep) as [[o fs2] evr] eqn:Er.
      destruct (release_from_events _ _ _ _ _ _ Er) as [l ->].
      destruct o as [[|]| |]; eexists _, _, l; reflexivity.
    + eexists _, _, []. reflexivity.
    + eexists _, _, []. reflexivity.
  - eexists _, _, []. reflexivity.
Qed.

Lemma to_be_freed_at_inj (p q v : Z) :
  NoDup (to_be_freed ss) ->
  to_be_freed_at ss p = Some v -> to_be_freed_at ss q = Some v -> p = q.
Proof.
  unfold to_be_freed_at. intros Hnd Hp Hq.
  destruct (Z.leb_spec 0 p); [|discriminate Hp].
  destruct (Z.leb_spec 0 q); [|discriminate Hq].
  pose proof (NoDup_lookup _ _ _ _ Hnd Hp Hq). lia.
Qed.

(** C8 (amended). A node visit that completes (Compute succeeded, every
    release succeeded) first invokes Compute and afterwards releases exactly
    the slots that to_be_freed lists at positions free_from_index ..
    free_to_index, in ascending position order.  When a full run returns
    success, its calls are the visits of the plan entries that pruning keeps,
    in plan order; the slots it releases are therefore those of the kept
    entries, and when their free ranges are disjoint and to_be_freed has no
    duplicate, each of these slots is released exactly once. *)
Theorem full_run_releases_free_ranges
    (runs : GraphRuns) (feed_idxs : list Z) (feeds : list OrtValue)
    (fetch_idxs : list Z) (fetches : list OrtValue) (allocs : FetchAllocators) :
  let r := Execute DEFAULT_RUN_ID DEFAULT_PARTIAL_RUN_ID ex ss runs
             feed_idxs feeds fetch_idxs fetches allocs DEFAULT_RUN_ID in
  let kept :=
    List.filter (fun nep => negb (node_is_pruned ex ss fetch_idxs (node_index nep)))
      (execution_plan ss) in
  (forall pc nep fs fs' evs,
      execution_plan ss !! pc = Some nep ->
      node_is_pruned ex ss fetch_idxs (node_index nep) = false ->
      execute_node ex ss fetch_idxs pc fs = (Next, fs', evs) ->
      node_block ss nep evs)
  /\ (result r = Returned Status_OK ->
      (exists blks, events r = concat blks /\ Forall2 (node_block ss) kept blks)
      /\ releases (events r) = flat_map (freed_slots ss) kept
      /\ (NoDup (flat_map free_positions kept) -> NoDup (to_be_freed ss) ->
          forall slot, In slot (flat_map (freed_slots ss) kept) ->
                       count_occ Z.eq_dec (releases (events r)) slot = 1%nat)).
Proof.
  cbv zeta. split.
  { intros pc nep fs fs' evs Hnep Hkeep Hstep.
    apply execute_node_Next in Hstep. destruct Hstep as (nep' & Hnep' & _ & Hc).
    rewrite Hnep in Hnep'. inversion Hnep'; subst nep'.
    destruct Hc as [(Hp & _)|(_ & Hb)]; [congruence|exact Hb]. }
  unfold Execute. rewrite Z.eqb_refl.
  destruct (Execute_range ex ss feeds fetch_idxs _ 0 (length (execution_plan ss)))
    as [[o fs1] ev1] eqn:E.
  destruct o as [[|c cd m]|w|]; try (intros H; discriminate H).
  destruct (GetOutputs fs1 fetches _) as [[st2 f2] fs2]. intros _. cbn [events].
  apply Execute_range_ok in E. rewrite Nat.sub_0_r in E.
  apply execute_nodes_Next in E. rewrite kept_entries_all in E.
  destruct E as (blks & -> & HF).
  pose proof (node_blocks_releases _ _ HF) as Hrel.
  split; [now exists blks|]. split; [exact Hrel|].
  intros Hpos Hnd slot Hin. rewrite Hrel.
  apply NoDup_count_occ'; [apply NoDup_ListNoDup|exact Hin].
  unfold freed_slots. rewrite omap_flat_map.
  apply NoDup_omap_inj; [exact Hpos|].
  intros p q v _ _. now apply to_be_freed_at_inj.
Qed.

(** C10. A node that only-execute-path-to-fetches pruning excludes is
    skipped as a whole: its iteration makes no call (no fence hook, no
    Compute, no release of its free range) and leaves the frame unchanged, so
    that a window behaves as if the position were not in it. *)
Theorem pruned_node_is_skipped
    (fetch : list Z) (pc : nat) (nep : NodeExecutionPlan) (nodes : gset NodeIndex) :
  execution_plan ss !! pc = Some nep ->
  terminate_flag_ ex pc = false ->
  ORT_MINIMAL_BUILD ex = false ->
  only_execute_path_to_fetches_ ex = true ->
  GetToBeExecutedNodes ss fetch = Some nodes ->
  node_index nep ∉ nodes ->
  (forall fs, execute_node ex ss fetch pc fs = (Next, fs, []))
  /\ (forall start end_ fs, (start <= pc < end_)%nat ->
        execute_nodes ex ss fetch (seq start (end_ - start)) fs
        = execute_nodes ex ss fetch (seq start (pc - start) ++ seq (S pc) (end_ - S pc)) fs).
Proof.
  intros Hnep Hterm Hmin Honly Hset Hnot.
  assert (forall fs, execute_node ex ss fetch pc fs = (Next, fs, [])) as Hskip.
  { intros fs. unfold execute_node. rewrite Hnep, Hterm.
    unfold node_is_pruned. rewrite Hmin, Hset, Honly.
    now rewrite (bool_decide_eq_true_2 _ Hnot). }
  split; [exact Hskip|].
  intros start end_ fs Hpc. rewrite (seq_split_at start pc end_ Hpc).
  rewrite !execute_nodes_app.
  destruct (execute_nodes ex ss fetch (seq start (pc - start)) fs) as [[fl fs1] ev1].
  destruct fl; [|reflexivity].
  cbn [execute_nodes]. rewrite Hskip.
  destruct (execute_nodes ex ss fetch (seq (S pc) (end_ - S pc)) fs1) as [[fl2 fs2] ev2].
  reflexivity.
Qed.

End Properties.

(** C8, witness: the three-node chain, where node p frees slot p. *)
Lemma full_run_releases_free_ranges_witness :
  result Sample.full_run_chain3 = Returned Status_OK
  /\ releases (events Sample.full_run_chain3) = [0; 1; 2]
  /\ count_occ Z.eq_dec (releases (events Sample.full_run_chain3)) 1 = 1%nat.
Proof.
  destruct (full_run_releases_free_ranges Sample.DEFAULT_RUN_ID Sample.DEFAULT_PARTIAL_RUN_ID
              (Sample.executor false false) Sample.chain3 Sample.no_runs
              [0] [10] [3] [] tt) as [_ H].
  destruct (H ltac:(vm_compute; reflexivity)) as (_ & Hrel & Honce).
  split; [vm_compute; reflexivity|]. split; [exact Hrel|].
  apply Honce.
  - vm_compute. repeat constructor; rewrite ?list_elem_of_In; cbn; lia.
  - vm_compute. repeat constructor; rewrite ?list_elem_of_In; cbn; lia.
  - vm_compute. right. left. reflexivity.
Defined.

(** C8 as stated fails: in a successful full run over a plan with disjoint
    free ranges, slots 0 and 2, listed at positions 0 and 1 for the pruned
    entry 1, are never released. *)
Lemma pruned_entry_slot_not_released :
  result Sample.full_run_side_branch = Returned Status_OK
  /\ map (fun nep => (free_from_index nep, free_to_index nep))
         (execution_plan Sample.side_branch) = [(0, -1); (0, 1); (2, 2)]
  /\ to_be_freed Sample.side_branch = [0; 2; 1]
  /\ releases (events Sample.full_run_side_branch) = [1].
Proof. vm_compute. repeat split. Qed.

(** C10, witness: entry 1 of the side-branch plan is outside the set {0, 2}. *)
Lemma pruned_node_is_skipped_witness :
  execute_node (Sample.executor false true) Sample.side_branch [3] 1%nat Sample.fed_frame
  = (Next, Sample.fed_frame, []).
Proof.
  apply (pruned_node_is_skipped (Sample.executor false true) Sample.side_branch
           [3] 1%nat {| node_index := 1%nat; free_from_index := 0; free_to_index := 1 |}
           {[0%nat; 2%nat]}).
  - reflexivity.
  - reflexivity.
  - reflexivity.
  - reflexivity.
  - reflexivity.
  - intros H. apply elem_of_union in H as [H|H]; apply elem_of_singleton in H; discriminate H.
Defined.

(** C7, witness: node 0 of the chain whose first kernel is fenced. *)
Lemma fence_hooks_in_fixed_order_witness :
  exists fl fs' released,
    execute_node (Sample.executor false false) Sample.failing_chain [3] 0%nat Sample.fed_frame
    = (fl, fs',
       [BeforeUsingAsInput 0%nat "CPUExecutionProvider" 0] ++ [KernelCompute 0%nat]
         ++ [AfterUsedAsInput 0%nat 0; AfterUsedAsOutput 1%nat 0] ++ map ReleaseValue released).
Proof.
  destruct (fence_hooks_in_fixed_order (Sample.executor false false) Sample.failing_chain
              [3] 0%nat Sample.fed_frame
              {| node_index := 0%nat; free_from_index := 0; free_to_index := 0 |}
              (Sample.fenced_incr_kernel 0 1)
              eq_refl eq_refl eq_refl eq_refl eq_refl)
    as (implicit_provider & _ & fl & fs' & released & H).
  exists fl, fs', released. exact H.
Defined.

(** C7 as stated fails: the visit of node 1, whose input slot has a fence and
    whose kernel fails, signals BeforeUsingAsInput and never AfterUsedAsInput. *)
Lemma failed_compute_skips_after_hooks :
  execute_node (Sample.executor false false) Sample.failing_chain [3] 1%nat
    ([None; Some 11; None; None; None; None; None; None], [3])
  = (Exit (Returned (Status_ ONNXRUNTIME FAIL
       "Non-zero status code returned while running Incr node. Name:'1n' Status Message: bad shape")),
     ([None; Some 11; None; None; None; None; None; None], [3]),
     [BeforeUsingAsInput 1%nat "CPUExecutionProvider" 0; KernelCompute 1%nat])
  /\ NodeHasFence Sample.failing_chain 1%nat = true
  /\ InputFence (Sample.failing_kernel 1 2)
       ([None; Some 11; None; None; None; None; None; None], [3]) 0%nat = Some 1%nat.
Proof. vm_compute. repeat split. Qed.

(** C5, witness: node 1 of a three-node chain fails after node 0 ran. *)
Lemma compute_failure_aborts_window_witness :
  exists category code msg,
    Execute_range (Sample.executor false false) Sample.failing_chain [10] [3]
      Sample.fed_frame 0%nat 3%nat
    = (Returned (Status_ category code msg),
       ([None; Some 11; None; None; None; None; None; None], [3]),
       [BeforeUsingAsInput 0%nat "CPUExecutionProvider" 0; KernelCompute 0%nat;
        AfterUsedAsInput 0%nat 0; AfterUsedAsOutput 1%nat 0; ReleaseValue 0]
         ++ [BeforeUsingAsInput 1%nat "CPUExecutionProvider" 0] ++ [KernelCompute 1%nat])
    /\ contains "1n" msg /\ contains "Incr" msg.
Proof.
  apply (compute_failure_aborts_window (Sample.executor false false) Sample.failing_chain
           [10] [3] Sample.fed_frame 0%nat 1%nat 3%nat
           ([None; Some 11; None; None; None; None; None; None], [3])
           [BeforeUsingAsInput 0%nat "CPUExecutionProvider" 0; KernelCompute 0%nat;
        AfterUsedAsInput 0%nat 0; AfterUsedAsOutput 1%nat 0; ReleaseValue 0]
           {| node_index := 1%nat; free_from_index := 1; free_to_index := 1 |}
           (Sample.failing_kernel 1 2)
           (Returns (Status_ ONNXRUNTIME FAIL "bad shape"))
           ([None; Some 11; None; None; None; None; None; None], [3])).
  - lia.
  - vm_compute. reflexivity.
  - reflexivity.
  - reflexivity.
  - reflexivity.
  - reflexivity.
  - intros _. reflexivity.
  - reflexivity.
  - discriminate.
Defined.

(** C6, witness: the flag is set before a full run of the three-node chain. *)
Lemma terminate_flag_aborts_window_witness :
  Execute_range (Sample.executor true false) Sample.chain3 [10] [3] Sample.fed_frame 0%nat 3%nat
  = (Returned (Status_ ONNXRUNTIME FAIL "Exiting due to terminate flag being set to true."),
     Sample.fed_frame, []).
Proof.
  apply (terminate_flag_aborts_window (Sample.executor true false) Sample.chain3
           [10] [3] Sample.fed_frame 0%nat 3%nat).
  - lia.
  - cbn. lia.
  - reflexivity.
Defined.

(** C6 as stated fails: the status of a terminated run and the status of a
    run whose kernel failed have the same category and the same code. *)
Lemma terminated_status_not_dedicated :
  result Sample.full_run_terminated
  = Returned (Status_ ONNXRUNTIME FAIL "Exiting due to terminate flag being set to true.")
  /\ result Sample.full_run_failing_chain
    = Returned (Status_ ONNXRUNTIME FAIL
        "Non-zero status code returned while running Incr node. Name:'1n' Status Message: bad shape")
  /\ computes (events Sample.full_run_failing_chain) = [0; 1]%nat.
Proof. vm_compute. repeat split. Qed.

(** C1, witness: the three-node chain. *)
Lemma full_run_visits_kept_entries_witness :
  result Sample.full_run_chain3 = Returned Status_OK
  /\ computes (events Sample.full_run_chain3) = [0; 1; 2]%nat.
Proof.
  split; [vm_compute; reflexivity|].
  pose proof (full_run_visits_kept_entries Sample.DEFAULT_RUN_ID Sample.DEFAULT_PARTIAL_RUN_ID
                (Sample.executor false false) Sample.chain3 Sample.no_runs
                [0] [10] [3] [] tt) as [_ H].
  destruct (H ltac:(vm_compute; reflexivity)) as [_ H2].
  apply H2. intros nep _. reflexivity.
Defined.

(** C1 as stated fails: with only-execute-path-to-fetches pruning a full run
    succeeds without invoking the kernel of plan entry 1. *)
Lemma full_run_skips_pruned_entry :
  result Sample.full_run_side_branch = Returned Status_OK
  /\ computes (events Sample.full_run_side_branch) = [0; 2]%nat
  /\ map node_index (execution_plan Sample.side_branch) = [0; 1; 2]%nat.
Proof. vm_compute. repeat split. Qed.

(** C4, at the failing input: with ownership transfer enabled a partial run
    over a one-node plan executes its only node and leaves the cursor at 2;
    the entry stays in the registry, and a second call with the same
    identifier returns success, executes nothing and moves the cursor to 3. *)
Theorem finished_run_stays_registered :
  result Sample.one_node_first = Returned Status_OK
  /\ computes (events Sample.one_node_first) = [0%nat]
  /\ run_id_after Sample.one_node_first = 0
  /\ saved_cursor (runs_after Sample.one_node_first) 0 = Some 2%nat
  /\ result Sample.one_node_second = Returned Status_OK
  /\ events Sample.one_node_second = [GraphRunsFind 0]
  /\ saved_cursor (runs_after Sample.one_node_second) 0 = Some 3%nat.
Proof. vm_compute. repeat split. Qed.

(** C9, at the failing input: when graph_runs_counter_ is INT64_MAX, starting
    a new partial run is not refused: the call returns success with run
    identifier INT64_MAX, and the counter is incremented past its maximum. *)
Theorem exhausted_counter_not_refused :
  result Sample.run_after_exhaustion = Returned Status_OK
  /\ run_id_after Sample.run_after_exhaustion = INT64_MAX
  /\ computes (events Sample.run_after_exhaustion) = [0; 1; 2]%nat
  /\ graph_runs_counter_ (runs_after Sample.run_after_exhaustion) = INT64_MIN.
Proof. vm_compute. repeat split. Qed.

(** ** Partial runs *)

Section PartialRuns.
Context `{FM : FrameModel}.
Variables (DEFAULT_RUN_ID DEFAULT_PARTIAL_RUN_ID : Z).
Variable ex : SequentialExecutor.
Variable ss : SessionState.

Local Abbreviation exec_plan_size := (length (execution_plan ss)).
Local Abbreviation transfer := (GetTransferIntermidiateTensorOwnership ss).

(** The scan for the end of the window goes forward, stays inside the
    plan, and passes the start position when that is inside the plan. *)
Lemma find_window_end_bounds n c : forall p e,
  find_window_end ss n c p = Some e ->
  (p <= e)%nat
  /\ ((p <= exec_plan_size)%nat -> (e <= exec_plan_size)%nat)
  /\ (n <> 0%nat -> p = c -> (c < exec_plan_size)%nat -> (c < e)%nat).
Proof.
  induction n as [|n IH]; intros p e H; cbn [find_window_end] in H.
  - inversion H; subst. repeat split; [lia|auto|congruence].
  - destruct (execution_plan ss !! p) as [nep|] eqn:El.
    + pose proof (lookup_lt_Some _ _ _ El) as Hlt.
      destruct (GetKernel ss (node_index nep)) as [k|]; [|discriminate H].
      destruct (negb (String.eqb (OpName k) "YieldOp") || Nat.eqb p c) eqn:Ec.
      * destruct (IH _ _ H) as (H1 & H2 & _).
        repeat split; [lia|intros _; apply H2; lia|intros _ ->; lia].
      * inversion H; subst. repeat split; [lia|auto|].
        intros _ Hpc _. rewrite Hpc, Nat.eqb_refl, orb_true_r in Ec. discriminate Ec.
    + inversion H; subst. apply lookup_ge_None in El.
      repeat split; [lia|auto|intros _ ->; lia].
Qed.

Lemma find_window_end_step n c p nep k :
  execution_plan ss !! p = Some nep ->
  GetKernel ss (node_index nep) = Some k ->
  find_window_end ss (S n) c p
  = if negb (String.eqb (OpName k) "YieldOp") || Nat.eqb p c
    then find_window_end ss n c (S p) else Some p.
Proof. intros Hl Hk. cbn [find_window_end]. now rewrite Hl, Hk. Qed.

(** What a window that returns success has done. *)
Lemma execute_window_ok runs it frame run_id feeds fetch fetches :
  let r := execute_window ex ss runs it frame run_id feeds fetch fetches in
  let c := program_counter_ frame in
  result r = Returned Status_OK ->
  exists e fs1 ev1 ev2 fetches' fs2,
    find_window_end ss (S exec_plan_size) c c = Some e
    /\ Execute_range ex ss feeds fetch (state frame) c e = (Returned Status_OK, fs1, ev1)
    /\ wait_before_next_node ss fs1 e = (Status_OK, ev2)
    /\ GetOutputs fs1 fetches transfer = (Status_OK, fetches', fs2)
    /\ run_id_after r = run_id
    /\ graph_runs_counter_ (runs_after r) = graph_runs_counter_ runs
    /\ (if Nat.eqb (if transfer then (e + 1)%nat else e) exec_plan_size
        then graph_runs_ (runs_after r) = delete it (graph_runs_ runs)
             /\ events r = ev1 ++ ev2 ++ [LockGraphRuns; GraphRunsErase it; UnlockGraphRuns]
        else graph_runs_ (runs_after r)
             = <[it := {| state := fs2;
                          program_counter_ := if transfer then (e + 1)%nat else e |}]>
                 (graph_runs_ runs)
             /\ events r = ev1 ++ ev2).
Proof.
  cbv zeta. unfold execute_window.
  destruct (find_window_end ss (S exec_plan_size) (program_counter_ frame)
              (program_counter_ frame)) as [e|]; [|intros H; discriminate H].
  destruct (Execute_range ex ss feeds fetch (state frame) (program_counter_ frame) e)
    as [[o fs1] ev1] eqn:Er.
  destruct o as [[|c cd m]|w|]; try (intros H; discriminate H).
  destruct (wait_before_next_node ss fs1 e) as [[|c cd m] ev2] eqn:Ew;
    [|intros H; discriminate H].
  destruct (GetOutputs fs1 fetches transfer) as [[[|c cd m] fetches'] fs2] eqn:Eg;
    [|intros H; discriminate H].
  intros _. exists e, fs1, ev1, ev2, fetches', fs2.
  split; [reflexivity|]. split; [exact Er|]. split; [exact Ew|]. split; [exact Eg|].
  destruct (Nat.eqb (if transfer then (e + 1)%nat else e) exec_plan_size);
    repeat split; reflexivity.
Qed.

Lemma wait_before_next_node_fence_events fs e st evs :
  wait_before_next_node ss fs e = (st, evs) ->
  Forall (fun ev => is_fence_event ev = true) evs.
Proof.
  unfold wait_before_next_node.
  destruct (execution_plan ss !! e) as [nep|]; [|intros H; inversion H; constructor].
  destruct (GetKernel ss (node_index nep)) as [k|]; intros H; inversion H;
    [apply sync_before_fence_events|constructor].
Qed.

Lemma Execute_range_ok_computes feeds fetch fs a b fs' evs :
  Execute_range ex ss feeds fetch fs a b = (Returned Status_OK, fs', evs) ->
  computes evs = map node_index (kept_entries ex ss fetch (seq a (b - a))).
Proof.
  intros H. apply Execute_range_ok in H. apply execute_nodes_Next in H.
  destruct H as (blks & -> & HF). exact (node_blocks_computes ss _ _ HF).
Qed.

(** A visited node without a kernel fails the run. *)
Lemma null_kernel_fails_run fetch pc fs nep :
  execution_plan ss !! pc = Some nep ->
  terminate_flag_ ex pc = false ->
  node_is_pruned ex ss fetch (node_index nep) = false ->
  GetKernel ss (node_index nep) = None ->
  execute_node ex ss fetch pc fs
  = (Exit (Returned (Status_ ONNXRUNTIME FAIL
             ("Got nullptr from GetKernel for node: "
                ++ Name (GetNode ss (node_index nep)))%string)), fs, []).
Proof. intros Hl Ht Hp Hk. unfold execute_node. now rewrite Hl, Ht, Hp, Hk. Qed.

(** An identifier that is neither a sentinel nor registered is refused by
    an ORT_ENFORCE, and nothing is registered for it. *)
Lemma unknown_run_id_throws runs fi fe fti ft al id :
  id <> DEFAULT_RUN_ID -> id <> DEFAULT_PARTIAL_RUN_ID ->
  graph_runs_ runs !! id = None ->
  exists what,
    result (Execute DEFAULT_RUN_ID DEFAULT_PARTIAL_RUN_ID ex ss runs fi fe fti ft al id)
    = Thrown what
    /\ runs_after (Execute DEFAULT_RUN_ID DEFAULT_PARTIAL_RUN_ID ex ss runs fi fe fti ft al id)
      = runs.
Proof.
  intros H1 H2 Hl. unfold Execute.
  rewrite (proj2 (Z.eqb_neq _ _) H1), (proj2 (Z.eqb_neq _ _) H2).
  destruct (id <? 0); [eexists; split; reflexivity|].
  rewrite Hl. eexists; split; reflexivity.
Qed.

(** C3 (amended). For a 5-node plan whose node at position 2 is the
    suspension operator (YieldOp) while the node at position 1 is not, a new
    partial run that returns success executes the window [0, 2): it visits
    the nodes at positions 0 and 1 (those that pruning keeps), then performs
    the fence before-hooks of the node at position 2, the suspension operator
    itself, without invoking its Compute, and leaves the frame registered with
    cursor 2, or 3 when intermediate-tensor-ownership transfer is enabled. *)
Theorem partial_run_stops_before_yield
    (runs : GraphRuns) (feed_idxs : list Z) (feeds : list OrtValue)
    (fetch_idxs : list Z) (fetches : list OrtValue) (allocs : FetchAllocators)
    (n0 n1 n2 n3 n4 : NodeExecutionPlan) (k0 k1 k2 : OpKernel) :
  DEFAULT_PARTIAL_RUN_ID <> DEFAULT_RUN_ID ->
  DEFAULT_PARTIAL_RUN_ID < INT64_MAX ->
  graph_runs_ runs !! graph_runs_counter_ runs = None ->
  execution_plan ss = [n0; n1; n2; n3; n4] ->
  GetKernel ss (node_index n0) = Some k0 ->
  GetKernel ss (node_index n1) = Some k1 ->
  GetKernel ss (node_index n2) = Some k2 ->
  OpName k1 <> "YieldOp" ->
  OpName k2 = "YieldOp" ->
  let r := Execute DEFAULT_RUN_ID DEFAULT_PARTIAL_RUN_ID ex ss runs
             feed_idxs feeds fetch_idxs fetches allocs DEFAULT_PARTIAL_RUN_ID in
  let key := graph_runs_counter_ runs in
  result r = Returned Status_OK ->
  exists fs1 ev1,
    Execute_range ex ss feeds fetch_idxs
      (NewFrame feed_idxs feeds fetch_idxs fetches allocs) 0 2
    = (Returned Status_OK, fs1, ev1)
    /\ events r = [LockGraphRuns; GraphRunsInsert key; UnlockGraphRuns]
                  ++ ev1 ++ sync_before ss (node_index n2) k2 fs1
    /\ computes (events r) = map node_index (kept_entries ex ss fetch_idxs [0; 1]%nat)
    /\ (node_is_pruned ex ss fetch_idxs (node_index n0) = false ->
        node_is_pruned ex ss fetch_idxs (node_index n1) = false ->
        computes (events r) = [node_index n0; node_index n1])
    /\ run_id_after r = key
    /\ saved_cursor (runs_after r) key = Some (if transfer then 3%nat else 2%nat).
Proof.
  intros Hne Hlt Hfresh Hplan Hk0 Hk1 Hk2 Hop1 Hop2. cbv zeta.
  unfold Execute.
  rewrite (proj2 (Z.eqb_neq _ _) Hne), Z.eqb_refl, Hfresh, (proj2 (Z.ltb_lt _ _) Hlt).
  set (frame := {| state := NewFrame feed_idxs feeds fetch_idxs fetches allocs;
                   program_counter_ := 0 |}).
  set (runs1 := {| graph_runs_ := _; graph_runs_counter_ := _ |}).
  intros Hr.
  destruct (execute_window_ok runs1 (graph_runs_counter_ runs) frame
              (graph_runs_counter_ runs) feeds fetch_idxs fetches Hr)
    as (e & fs1 & ev1 & ev2 & fetches' & fs2 & Hfind & Hrange & Hwait & _ & Hid & _ & Hcur).
  assert (e = 2%nat) as ->.
  { cbn [program_counter_ frame] in Hfind.
    assert (execution_plan ss !! 0%nat = Some n0) as H0 by now rewrite Hplan.
    assert (execution_plan ss !! 1%nat = Some n1) as H1 by now rewrite Hplan.
    assert (execution_plan ss !! 2%nat = Some n2) as H2 by now rewrite Hplan.
    rewrite (find_window_end_step _ _ _ _ _ H0 Hk0) in Hfind.
    cbn [Nat.eqb] in Hfind. rewrite orb_true_r in Hfind.
    rewrite Hplan in Hfind. cbn [length] in Hfind.
    rewrite (find_window_end_step _ _ _ _ _ H1 Hk1) in Hfind.
    rewrite (proj2 (String.eqb_neq _ _) Hop1) in Hfind. cbn [negb orb] in Hfind.
    rewrite (find_window_end_step _ _ _ _ _ H2 Hk2) in Hfind.
    rewrite (proj2 (String.eqb_eq _ _) Hop2) in Hfind. cbn [negb orb Nat.eqb] in Hfind.
    now inversion Hfind. }
  assert (ev2 = sync_before ss (node_index n2) k2 fs1) as ->.
  { unfold wait_before_next_node in Hwait. rewrite Hplan in Hwait.
    cbn [lookup list_lookup] in Hwait. rewrite Hk2 in Hwait. now inversion Hwait. }
  assert (Nat.eqb (if transfer then (2 + 1)%nat else 2%nat) exec_plan_size = false) as Hnot.
  { rewrite Hplan. now destruct transfer. }
  rewrite Hnot in Hcur. destruct Hcur as [Hruns Hev].
  cbn [program_counter_ frame state] in Hrange.
  assert (computes (events (with_events_before
            [LockGraphRuns; GraphRunsInsert (graph_runs_counter_ runs); UnlockGraphRuns]
            (execute_window ex ss runs1 (graph_runs_counter_ runs) frame
               (graph_runs_counter_ runs) feeds fetch_idxs fetches)))
          = map node_index (kept_entries ex ss fetch_idxs [0; 1]%nat)) as Hc.
  { cbn [events with_events_before]. rewrite Hev, !computes_app.
    rewrite (fence_events_computes _ (sync_before_fence_events ss _ _ _)), app_nil_r.
    exact (Execute_range_ok_computes _ _ _ _ _ _ _ Hrange). }
  exists fs1, ev1. split; [exact Hrange|]. split; [|split; [exact Hc|split; [|split]]].
  - cbn [events with_events_before]. now rewrite Hev.
  - intros Hp0 Hp1. rewrite Hc. unfold kept_entries. rewrite Hplan.
    cbn [flat_map lookup list_lookup]. now rewrite Hp0, Hp1.
  - exact Hid.
  - unfold saved_cursor. cbn [runs_after with_events_before]. rewrite Hruns.
    rewrite lookup_insert_eq. cbn. now destruct transfer.
Qed.

Lemma kept_entries_app fetch a b :
  kept_entries ex ss fetch (a ++ b) = kept_entries ex ss fetch a ++ kept_entries ex ss fetch b.
Proof. unfold kept_entries. apply flat_map_app. Qed.

Lemma Execute_resume runs fi fe fti ft al id found :
  id <> DEFAULT_RUN_ID -> id <> DEFAULT_PARTIAL_RUN_ID -> 0 <= id ->
  graph_runs_ runs !! id = Some found ->
  Execute DEFAULT_RUN_ID DEFAULT_PARTIAL_RUN_ID ex ss runs fi fe fti ft al id
  = with_events_before [GraphRunsFind id]
      (execute_window ex ss
         (store_frame runs id
            {| state := UpdateFeedAndFetches fi fe fti ft (state found);
               program_counter_ := program_counter_ found |})
         id
         {| state := UpdateFeedAndFetches fi fe fti ft (state found);
            program_counter_ := program_counter_ found |}
         id fe fti ft).
Proof.
  intros H1 H2 H3 Hl. unfold Execute.
  rewrite (proj2 (Z.eqb_neq _ _) H1), (proj2 (Z.eqb_neq _ _) H2).
  rewrite (proj2 (Z.ltb_ge _ _) H3), Hl. reflexivity.
Qed.

Lemma Execute_new runs fi fe fti ft al :
  DEFAULT_PARTIAL_RUN_ID <> DEFAULT_RUN_ID ->
  DEFAULT_PARTIAL_RUN_ID < INT64_MAX ->
  graph_runs_ runs !! graph_runs_counter_ runs = None ->
  Execute DEFAULT_RUN_ID DEFAULT_PARTIAL_RUN_ID ex ss runs fi fe fti ft al
    DEFAULT_PARTIAL_RUN_ID
  = with_events_before
      [LockGraphRuns; GraphRunsInsert (graph_runs_counter_ runs); UnlockGraphRuns]
      (execute_window ex ss
         {| graph_runs_ :=
              <[graph_runs_counter_ runs :=
                  {| state := NewFrame fi fe fti ft al; program_counter_ := 0 |}]>
                (graph_runs_ runs);
            graph_runs_counter_ := int64_incr (graph_runs_counter_ runs) |}
         (graph_runs_counter_ runs)
         {| state := NewFrame fi fe fti ft al; program_counter_ := 0 |}
         (graph_runs_counter_ runs) fe fti ft).
Proof.
  intros H1 H2 Hl. unfold Execute.
  rewrite (proj2 (Z.eqb_neq _ _) H1), Z.eqb_refl, Hl, (proj2 (Z.ltb_lt _ _) H2).
  reflexivity.
Qed.

(** With ownership transfer disabled, a successful window runs from the
    cursor to a later position [e] of the plan, and either [e] is the plan end
    and the entry is erased, or the frame stays registered with cursor [e]. *)
Lemma window_summary pre runs it frame run_id feeds fetch fetches :
  transfer = false ->
  computes pre = [] ->
  (program_counter_ frame <= exec_plan_size)%nat ->
  let r := with_events_before pre
             (execute_window ex ss runs it frame run_id feeds fetch fetches) in
  let c := program_counter_ frame in
  result r = Returned Status_OK ->
  exists e,
    (c <= e <= exec_plan_size)%nat
    /\ ((c < exec_plan_size)%nat -> (c < e)%nat)
    /\ computes (events r) = map node_index (kept_entries ex ss fetch (seq c (e - c)))
    /\ run_id_after r = run_id
    /\ ((e = exec_plan_size /\ graph_runs_ (runs_after r) !! it = None)
        \/ (e <> exec_plan_size
            /\ exists fs2, graph_runs_ (runs_after r) !! it
                           = Some {| state := fs2; program_counter_ := e |})).
Proof.
  intros Ht Hpre Hc. cbv zeta. intros Hr.
  destruct (execute_window_ok runs it frame run_id feeds fetch fetches Hr)
    as (e & fs1 & ev1 & ev2 & fetches' & fs2 & Hfind & Hrange & Hwait & _ & Hid & _ & Hcur).
  destruct (find_window_end_bounds _ _ _ _ Hfind) as (Hle & Hin & Hprog).
  exists e. rewrite Ht in Hcur.
  split; [split; [exact Hle|now apply Hin]|].
  split; [intros Hlt; now apply Hprog|].
  assert (computes (pre ++ ev1 ++ ev2)
          = map node_index (kept_entries ex ss fetch
                              (seq (program_counter_ frame) (e - program_counter_ frame))))
    as Hcomp.
  { rewrite !computes_app, Hpre.
    rewrite (fence_events_computes _ (wait_before_next_node_fence_events _ _ _ _ Hwait)).
    rewrite app_nil_r. exact (Execute_range_ok_computes _ _ _ _ _ _ _ Hrange). }
  cbn [events runs_after run_id_after with_events_before].
  destruct (Nat.eqb_spec e exec_plan_size) as [He|He]; destruct Hcur as [Hruns Hev];
    rewrite Hev, Hruns.
  - split; [|split; [exact Hid|left; split; [exact He|apply lookup_delete_eq]]].
    rewrite <- Hcomp, !computes_app. cbn. now rewrite !app_nil_r.
  - split; [exact Hcomp|]. split; [exact Hid|]. right. split; [exact He|].
    exists fs2. apply lookup_insert_eq.
Qed.

Lemma after_events_Unfinished evs d evs' :
  after_events evs d = Unfinished evs' -> exists evs'', d = Unfinished evs''.
Proof. destruct d; intros H; inversion H; eauto. Qed.

Lemma after_events_Completed evs d evs' :
  after_events evs d = Completed evs' -> exists evs'', d = Completed evs'' /\ evs' = evs ++ evs''.
Proof. destruct d; intros H; inversion H; eauto. Qed.

(** Resuming a registered run whose cursor is [c], with ownership
    transfer disabled: more than [plan_size - c] calls are never needed, and a
    completed run has visited the kept entries of [c, plan_size). *)
Lemma resume_covers_rest fi fe fti ft al id :
  transfer = false ->
  id <> DEFAULT_RUN_ID -> id <> DEFAULT_PARTIAL_RUN_ID -> 0 <= id ->
  forall n runs found,
    graph_runs_ runs !! id = Some found ->
    (program_counter_ found <= exec_plan_size)%nat ->
    (exec_plan_size - program_counter_ found < n)%nat ->
    let d := resume_until_complete DEFAULT_RUN_ID DEFAULT_PARTIAL_RUN_ID ex ss
               n runs id fi fe fti ft al in
    (forall evs, d <> Unfinished evs)
    /\ (forall evs, d = Completed evs ->
          computes evs
          = map node_index
              (kept_entries ex ss fti
                 (seq (program_counter_ found) (exec_plan_size - program_counter_ found)))).
Proof.
  intros Ht H1 H2 H3.
  induction n as [|n IH]; intros runs found Hl Hc Hn; [lia|].
  cbv zeta. cbn [resume_until_complete].
  rewrite (Execute_resume runs fi fe fti ft al id found H1 H2 H3 Hl).
  set (frame := {| state := UpdateFeedAndFetches fi fe fti ft (state found);
                   program_counter_ := program_counter_ found |}).
  set (r := with_events_before [GraphRunsFind id] _).
  pose proof (window_summary [GraphRunsFind id] (store_frame runs id frame) id frame id
                fe fti ft Ht eq_refl Hc) as Hsum.
  cbv zeta in Hsum. fold r in Hsum. cbn [program_counter_ frame] in Hsum.
  destruct (result r) as [[|cat cd m]|w|] eqn:Er;
    try (split; intros evs H; discriminate H).
  destruct (Hsum eq_refl) as (e & [Hle Hes] & Hprog & Hcomp & Hid & Hreg).
  destruct Hreg as [[He Hnone]|[He [fs2 Hsome]]].
  - rewrite Hnone. split; [intros evs H; discriminate H|].
    intros evs H. assert (evs = events r) as -> by congruence.
    rewrite Hcomp. now rewrite He.
  - rewrite Hsome.
    assert (program_counter_ found < e)%nat as Hlt by (apply Hprog; lia).
    destruct (IH (runs_after r) {| state := fs2; program_counter_ := e |} Hsome Hes
                ltac:(cbn [program_counter_]; lia)) as [IH1 IH2].
    cbv zeta in IH1, IH2. cbn [program_counter_] in IH2.
    split.
    + intros evs H. apply after_events_Unfinished in H. destruct H as [evs'' H].
      exact (IH1 _ H).
    + intros evs H. apply after_events_Completed in H. destruct H as (evs'' & H & ->).
      rewrite computes_app, Hcomp, (IH2 _ H), <- map_app, <- kept_entries_app.
      rewrite seq_join by lia. reflexivity.
Qed.

(** C2 (amended). With intermediate-tensor-ownership transfer disabled, a
    caller that starts a partial run and keeps calling Execute with the
    identifier it got and the same arguments needs at most plan_size calls
    after the first one before the run is complete, unless a call fails; and
    the kernels invoked by the windows of a completed run, taken together, are
    those of the plan entries that pruning keeps, in plan order: the sequence
    of a full run of the same plan with the same arguments that returns
    success. *)
Theorem partial_run_windows_cover_plan
    (n : nat) (runs : GraphRuns) (feed_idxs : list Z) (feeds : list OrtValue)
    (fetch_idxs : list Z) (fetches : list OrtValue) (allocs : FetchAllocators) :
  DEFAULT_PARTIAL_RUN_ID <> DEFAULT_RUN_ID ->
  DEFAULT_PARTIAL_RUN_ID < INT64_MAX ->
  transfer = false ->
  graph_runs_ runs !! graph_runs_counter_ runs = None ->
  graph_runs_counter_ runs <> DEFAULT_RUN_ID ->
  graph_runs_counter_ runs <> DEFAULT_PARTIAL_RUN_ID ->
  0 <= graph_runs_counter_ runs ->
  (exec_plan_size <= n)%nat ->
  let d := partial_run_to_completion DEFAULT_RUN_ID DEFAULT_PARTIAL_RUN_ID ex ss
             n runs feed_idxs feeds fetch_idxs fetches allocs in
  let full := Execute DEFAULT_RUN_ID DEFAULT_PARTIAL_RUN_ID ex ss runs
                feed_idxs feeds fetch_idxs fetches allocs DEFAULT_RUN_ID in
  (forall evs, d <> Unfinished evs)
  /\ (forall evs, d = Completed evs ->
        computes evs
        = map node_index
            (List.filter (fun nep => negb (node_is_pruned ex ss fetch_idxs (node_index nep)))
               (execution_plan ss))
        /\ (result full = Returned Status_OK -> computes evs = computes (events full))).
Proof.
  intros Hne Hlt Ht Hfresh Hk1 Hk2 Hk0 Hn. cbv zeta.
  assert (forall evs,
            computes evs = map node_index (kept_entries ex ss fetch_idxs (seq 0 exec_plan_size)) ->
            computes evs
            = map node_index
                (List.filter (fun nep => negb (node_is_pruned ex ss fetch_idxs (node_index nep)))
                   (execution_plan ss))
            /\ (result (Execute DEFAULT_RUN_ID DEFAULT_PARTIAL_RUN_ID ex ss runs
                          feed_idxs feeds fetch_idxs fetches allocs DEFAULT_RUN_ID)
                = Returned Status_OK ->
                computes evs
                = computes (events (Execute DEFAULT_RUN_ID DEFAULT_PARTIAL_RUN_ID ex ss runs
                                      feed_idxs feeds fetch_idxs fetches allocs DEFAULT_RUN_ID))))
    as Hfull.
  { intros evs Hev. rewrite kept_entries_all in Hev. split; [exact Hev|].
    intros Hr. rewrite Hev, <- kept_entries_all. symmetry.
    exact (full_run_ok_computes DEFAULT_RUN_ID DEFAULT_PARTIAL_RUN_ID ex ss runs feed_idxs
             feeds fetch_idxs fetches allocs Hr). }
  unfold partial_run_to_completion.
  rewrite (Execute_new runs feed_idxs feeds fetch_idxs fetches allocs Hne Hlt Hfresh).
  set (key := graph_runs_counter_ runs) in *.
  set (frame := {| state := NewFrame feed_idxs feeds fetch_idxs fetches allocs;
                   program_counter_ := 0 |}).
  set (runs1 := {| graph_runs_ := _; graph_runs_counter_ := _ |}).
  set (r := with_events_before _ _).
  pose proof (window_summary [LockGraphRuns; GraphRunsInsert key; UnlockGraphRuns]
                runs1 key frame key feeds fetch_idxs fetches Ht eq_refl
                ltac:(cbn [program_counter_ frame]; lia)) as Hsum.
  cbv zeta in Hsum. fold r in Hsum. cbn [program_counter_ frame] in Hsum.
  destruct (result r) as [[|cat cd m]|w|] eqn:Er;
    try (split; intros evs H; discriminate H).
  destruct (Hsum eq_refl) as (e & [Hle Hes] & Hprog & Hcomp & Hid & Hreg).
  rewrite Hid. rewrite Nat.sub_0_r in Hcomp.
  destruct Hreg as [[He Hnone]|[He [fs2 Hsome]]].
  - rewrite Hnone. split; [intros evs H; discriminate H|].
    intros evs H. assert (evs = events r) as -> by congruence.
    apply Hfull. rewrite Hcomp. now rewrite He.
  - rewrite Hsome.
    assert (0 < e)%nat as Hpos by (apply Hprog; lia).
    destruct (resume_covers_rest feed_idxs feeds fetch_idxs fetches allocs key
                Ht Hk1 Hk2 Hk0 n (runs_after r) {| state := fs2; program_counter_ := e |}
                Hsome Hes ltac:(cbn [program_counter_]; lia)) as [R1 R2].
    cbv zeta in R1, R2. cbn [program_counter_] in R2.
    split.
    + intros evs H. apply after_events_Unfinished in H. destruct H as [evs'' H].
      exact (R1 _ H).
    + intros evs H. apply after_events_Completed in H. destruct H as (evs'' & H & ->).
      apply Hfull.
      rewrite computes_app, Hcomp, (R2 _ H), <- map_app, <- kept_entries_app.
      rewrite <- (Nat.sub_0_r e) at 1. rewrite seq_join by lia.
      now rewrite Nat.sub_0_r.
Qed.

End PartialRuns.

(** C2, witness: the five-node plan with the suspension operator at 2 is
    completed in two windows that together visit what a full run visits. *)
Lemma partial_run_windows_cover_plan_witness :
  exists evs,
    Sample.drive (Sample.yield_at_2 false) = Completed evs
    /\ computes evs = [0; 1; 2; 3; 4]%nat
    /\ computes evs
       = computes (events (Sample.run (Sample.executor false false) (Sample.yield_at_2 false)
                             Sample.no_runs Sample.DEFAULT_RUN_ID)).
Proof.
  eexists. split; [vm_compute; reflexivity|].
  destruct (partial_run_windows_cover_plan Sample.DEFAULT_RUN_ID Sample.DEFAULT_PARTIAL_RUN_ID
              (Sample.executor false false) (Sample.yield_at_2 false) 5 Sample.no_runs
              [0] [10] [3] [] tt
              ltac:(discriminate) ltac:(reflexivity) ltac:(reflexivity) ltac:(reflexivity)
              ltac:(discriminate) ltac:(discriminate) ltac:(vm_compute; discriminate)
              ltac:(cbn; lia)) as [_ H].
  destruct (H _ ltac:(vm_compute; reflexivity)) as [H1 H2].
  split; [exact H1|]. apply H2. vm_compute. reflexivity.
Defined.

(** C2 as stated fails: with ownership transfer enabled, the partial run over
    a plan ending in the suspension operator is complete after one window,
    which visits nodes 0 and 1; the full run also visits node 2. *)
Lemma transfer_mode_skips_yield :
  Sample.drive Sample.yield_last
  = Completed [LockGraphRuns; GraphRunsInsert 0; UnlockGraphRuns;
               KernelCompute 0%nat; ReleaseValue 0; KernelCompute 1%nat; ReleaseValue 1;
               BeforeUsingAsInput 2%nat "CPUExecutionProvider" 0;
               LockGraphRuns; GraphRunsErase 0; UnlockGraphRuns]
  /\ result (Sample.run (Sample.executor false false) Sample.yield_last Sample.no_runs
               Sample.DEFAULT_RUN_ID) = Returned Status_OK
  /\ computes (events (Sample.run (Sample.executor false false) Sample.yield_last
                         Sample.no_runs Sample.DEFAULT_RUN_ID)) = [0; 1; 2]%nat.
Proof. vm_compute. repeat split. Qed.


(** C3, witness: the five-node plan with the suspension operator at 2. *)
Lemma partial_run_stops_before_yield_witness :
  computes (events (Sample.new_partial_run false)) = [0; 1]%nat
  /\ saved_cursor (runs_after (Sample.new_partial_run false)) 0 = Some 2%nat.
Proof.
  destruct (partial_run_stops_before_yield Sample.DEFAULT_RUN_ID Sample.DEFAULT_PARTIAL_RUN_ID
              (Sample.executor false false) (Sample.yield_at_2 false) Sample.no_runs
              [0] [10] [3] [] tt
              {| node_index := 0%nat; free_from_index := 0; free_to_index := 0 |}
              {| node_index := 1%nat; free_from_index := 1; free_to_index := 1 |}
              {| node_index := 2%nat; free_from_index := 2; free_to_index := 2 |}
              {| node_index := 3%nat; free_from_index := 3; free_to_index := 3 |}
              {| node_index := 4%nat; free_from_index := 4; free_to_index := 4 |}
              (Sample.incr_kernel 0 1) (Sample.incr_kernel 1 2) (Sample.yield_kernel 2 4)
              ltac:(discriminate) ltac:(reflexivity) ltac:(reflexivity) ltac:(reflexivity)
              ltac:(reflexivity) ltac:(reflexivity) ltac:(reflexivity)
              ltac:(discriminate) ltac:(reflexivity) ltac:(vm_compute; reflexivity))
    as (fs1 & ev1 & _ & _ & _ & Hc & _ & Hcur).
  split; [apply Hc; reflexivity|exact Hcur].
Defined.

(** C3 as stated fails: the partial run computes the nodes at positions 0
    and 1 only; the fence wait is for the input of node 2, the suspension
    operator, not for node 3; the cursor is left at 2, and at 3 with
    ownership transfer. *)
Lemma partial_run_does_not_execute_yield :
  result (Sample.new_partial_run false) = Returned Status_OK
  /\ events (Sample.new_partial_run false)
    = [LockGraphRuns; GraphRunsInsert 0; UnlockGraphRuns;
       KernelCompute 0%nat; ReleaseValue 0; KernelCompute 1%nat; ReleaseValue 1;
       BeforeUsingAsInput 2%nat "CPUExecutionProvider" 0]
  /\ saved_cursor (runs_after (Sample.new_partial_run false)) 0 = Some 2%nat
  /\ computes (events (Sample.new_partial_run true)) = [0; 1]%nat
  /\ saved_cursor (runs_after (Sample.new_partial_run true)) 0 = Some 3%nat.
Proof. vm_compute. repeat split. Qed.


(** ** Further properties of the per-node loop *)

Section WindowProperties.
Context `{FM : FrameModel}.
Variable ex : SequentialExecutor.
Variable ss : SessionState.

(** Once an iteration leaves Execute, the window's end and the nodes after
    it play no role. *)
Lemma window_exits_at feeds fetch fs start pc end_ fs_pc evs_pre o fs' evs :
  (start <= pc < end_)%nat ->
  execute_nodes ex ss fetch (seq start (pc - start)) fs = (Next, fs_pc, evs_pre) ->
  execute_node ex ss fetch pc fs_pc = (Exit o, fs', evs) ->
  Execute_range ex ss feeds fetch fs start end_ = (o, fs', evs_pre ++ evs).
Proof.
  intros Hpc Hpre Hexit. unfold Execute_range.
  rewrite (seq_split_at start pc end_ Hpc), execute_nodes_app, Hpre.
  cbn [execute_nodes]. now rewrite Hexit.
Qed.


(** X2. The termination flag is polled before every node: if it is first
    seen set at position [pc] of the window, the nodes before [pc] have been
    visited in full, nothing is called for [pc] or any later node, and the
    terminated status is returned with the frame those visits left. *)
Theorem terminate_flag_stops_before_node
    (feeds : list OrtValue) (fetch : list Z) (fs : FrameState)
    (start pc end_ : nat) (fs_pc : FrameState) (evs_pre : list Event) :
  (start <= pc < end_)%nat ->
  (pc < length (execution_plan ss))%nat ->
  execute_nodes ex ss fetch (seq start (pc - start)) fs = (Next, fs_pc, evs_pre) ->
  terminate_flag_ ex pc = true ->
  Execute_range ex ss feeds fetch fs start end_
  = (Returned (Status_ ONNXRUNTIME FAIL "Exiting due to terminate flag being set to true."),
     fs_pc, evs_pre).
Proof.
  intros Hpc Hsize Hpre Hterm.
  rewrite <- (app_nil_r evs_pre).
  apply (window_exits_at feeds fetch fs start pc end_ fs_pc evs_pre); [exact Hpc|exact Hpre|].
  unfold execute_node.
  destruct (lookup_lt_is_Some_2 (execution_plan ss) pc Hsize) as [nep ->].
  now rewrite Hterm.
Qed.

(** X3. A node without a kernel fails the window before any fence of that
    node is signalled: the status is (ONNXRUNTIME, FAIL) with the node's name
    in the message, and the calls made are those of the nodes before it. *)
Theorem null_kernel_aborts_window
    (feeds : list OrtValue) (fetch : list Z) (fs : FrameState)
    (start pc end_ : nat) (fs_pc : FrameState) (evs_pre : list Event)
    (nep : NodeExecutionPlan) :
  (start <= pc < end_)%nat ->
  execute_nodes ex ss fetch (seq start (pc - start)) fs = (Next, fs_pc, evs_pre) ->
  execution_plan ss !! pc = Some nep ->
  terminate_flag_ ex pc = false ->
  node_is_pruned ex ss fetch (node_index nep) = false ->
  GetKernel ss (node_index nep) = None ->
  Execute_range ex ss feeds fetch fs start end_
  = (Returned (Status_ ONNXRUNTIME FAIL
       ("Got nullptr from GetKernel for node: " ++ Name (GetNode ss (node_index nep)))%string),
     fs_pc, evs_pre).
Proof.
  intros Hpc Hpre Hnep Hterm Hprune Hk.
  rewrite <- (app_nil_r evs_pre).
  apply (window_exits_at feeds fetch fs start pc end_ fs_pc evs_pre); [exact Hpc|exact Hpre|].
  now apply null_kernel_fails_run.
Qed.

(** X4. In a training build, when the kernel asks for contiguous inputs and
    the check of the inputs fails, the kernel's Compute is not invoked: the
    window returns the status of the check as it is (no node name is added),
    after the before-hooks of the node and without any after-hook or release. *)
Theorem contiguity_check_failure_skips_compute
    (feeds : list OrtValue) (fetch : list Z) (fs : FrameState)
    (start pc end_ : nat) (fs_pc : FrameState) (evs_pre : list Event)
    (nep : NodeExecutionPlan) (k : OpKernel) (st : Status) :
  (start <= pc < end_)%nat ->
  execute_nodes ex ss fetch (seq start (pc - start)) fs = (Next, fs_pc, evs_pre) ->
  execution_plan ss !! pc = Some nep ->
  terminate_flag_ ex pc = false ->
  node_is_pruned ex ss fetch (node_index nep) = false ->
  GetKernel ss (node_index nep) = Some k ->
  ENABLE_TRAINING ex = true ->
  AllocateInputsContiguously k = true ->
  VerifyInputTensorsAllocatedContiguously k fs_pc = st ->
  st <> Status_OK ->
  Execute_range ex ss feeds fetch fs start end_
  = (Returned st, fs_pc, evs_pre ++ sync_before ss (node_index nep) k fs_pc)
  /\ computes (sync_before ss (node_index nep) k fs_pc) = [].
Proof.
  intros Hpc Hpre Hnep Hterm Hprune Hk Htr Hal Hv Hst.
  split; [|apply fence_events_computes, sync_before_fence_events].
  apply (window_exits_at feeds fetch fs start pc end_ fs_pc evs_pre); [exact Hpc|exact Hpre|].
  unfold execute_node. rewrite Hnep, Hterm, Hprune, Hk.
  unfold try_compute. rewrite Htr, Hal, Hv. cbn [andb].
  destruct st; [congruence|]. cbn [IsOK]. now rewrite app_nil_r.
Qed.

(** X5. A kernel's failure keeps its category and code: when Compute
    returns a non-success status the window's status has that status's
    category and code, and when Compute raises an exception it has
    (ONNXRUNTIME, RUNTIME_EXCEPTION); in both cases the message ends with the
    kernel's own message. *)
Theorem compute_failure_keeps_category_and_code
    (feeds : list OrtValue) (fetch : list Z) (fs : FrameState)
    (start pc end_ : nat) (fs_pc : FrameState) (evs_pre : list Event)
    (nep : NodeExecutionPlan) (k : OpKernel) (cr : ComputeResult) (fs_fail : FrameState) :
  (start <= pc < end_)%nat ->
  execute_nodes ex ss fetch (seq start (pc - start)) fs = (Next, fs_pc, evs_pre) ->
  execution_plan ss !! pc = Some nep ->
  terminate_flag_ ex pc = false ->
  node_is_pruned ex ss fetch (node_index nep) = false ->
  GetKernel ss (node_index nep) = Some k ->
  (ENABLE_TRAINING ex && AllocateInputsContiguously k = true ->
   VerifyInputTensorsAllocatedContiguously k fs_pc = Status_OK) ->
  Compute k fs_pc = (cr, fs_fail) ->
  cr <> Returns Status_OK ->
  exists prefix,
    fst (fst (Execute_range ex ss feeds fetch fs start end_))
    = Returned
        match cr with
        | Returns s => Status_ (Category s) (Code s) (prefix ++ ErrorMessage s)%string
        | Raises what => Status_ ONNXRUNTIME RUNTIME_EXCEPTION (prefix ++ what)%string
        end.
Proof.
  intros Hpc Hpre Hnep Hterm Hprune Hk Hverify Hcompute Hfail.
  set (node := GetNode ss (node_index nep)).
  exists ("Non-zero status code returned while running " ++ OpType node ++ " node. Name:'"
            ++ Name node ++ "' Status Message: ")%string.
  set (cs := match cr with
             | Returns s => s
             | Raises what => Status_ ONNXRUNTIME RUNTIME_EXCEPTION what
             end).
  assert (IsOK cs = false) as Hcs.
  { subst cs. destruct cr as [[|c cd m]|w]; [congruence|reflexivity|reflexivity]. }
  assert (try_compute ex (node_index nep) k fs_pc
          = (inr cs, fs_fail, [KernelCompute (node_index nep)])) as Htc.
  { subst cs. unfold try_compute.
    destruct (ENABLE_TRAINING ex && AllocateInputsContiguously k).
    - rewrite (Hverify eq_refl). cbn [IsOK]. rewrite Hcompute. now destruct cr.
    - cbn [IsOK]. rewrite Hcompute. now destruct cr. }
  assert (execute_node ex ss fetch pc fs_pc
          = (Exit (Returned (compute_failure_status node cs)), fs_fail,
             sync_before ss (node_index nep) k fs_pc ++ [KernelCompute (node_index nep)])) as Hn.
  { unfold execute_node. now rewrite Hnep, Hterm, Hprune, Hk, Htc, Hcs. }
  rewrite (window_exits_at feeds fetch fs start pc end_ fs_pc evs_pre _ _ _ Hpc Hpre Hn).
  cbn [fst]. unfold compute_failure_status. rewrite <- !string_app_assoc.
  subst cs. destruct cr as [[|c cd m]|w]; [congruence|reflexivity|reflexivity].
Qed.

Lemma release_from_prefix n : forall i fs o fs' evs,
  release_from ss n i fs = (o, fs', evs) ->
  exists j, (j <= n)%nat
            /\ evs = map ReleaseValue (take j (omap (to_be_freed_at ss) (positions i n))).
Proof.
  induction n as [|n IH]; intros i fs o fs' evs H.
  - cbn in H. inversion H. exists 0%nat. split; [lia|reflexivity].
  - rewrite positions_S. cbn [release_from] in H. cbn [omap list_omap].
    destruct (to_be_freed_at ss i) as [v|]; [|inversion H; exists 0%nat; split; [lia|reflexivity]].
    destruct (ReleaseMLValue fs v) as [st fs1].
    destruct st as [|c cd m].
    + destruct (release_from ss n (i + 1) fs1) as [[r fs2] ev2] eqn:E.
      inversion H; subst. destruct (IH _ _ _ _ _ E) as (j & Hj & ->).
      exists (S j). split; [lia|reflexivity].
    + inversion H; subst. exists 1%nat. split; [lia|reflexivity].
Qed.

(** X6. ReleaseNodeMLValues only ever releases a prefix of the node's free
    range, in position order: whatever its outcome, the slots released are the
    first [j] of those listed at free_from_index .. free_to_index; on success
    all of them are released; and a range with free_to_index below
    free_from_index releases nothing and succeeds. *)
Theorem release_is_prefix_of_free_range
    (fs : FrameState) (nep : NodeExecutionPlan)
    (o : Outcome Status) (fs' : FrameState) (evs : list Event) :
  ReleaseNodeMLValues ss fs nep = (o, fs', evs) ->
  (exists j, (j <= length (free_positions nep))%nat
             /\ evs = map ReleaseValue (take j (freed_slots ss nep)))
  /\ (o = Returned Status_OK -> evs = map ReleaseValue (freed_slots ss nep))
  /\ (free_to_index nep < free_from_index nep ->
      o = Returned Status_OK /\ fs' = fs /\ evs = []).
Proof.
  intros H. split; [|split].
  - unfold ReleaseNodeMLValues in H. apply release_from_prefix in H.
    destruct H as (j & Hj & ->). exists j. split; [|reflexivity].
    unfold free_positions. now rewrite positions_length.
  - intros ->. now apply ReleaseNodeMLValues_ok in H.
  - intros Hlt. unfold ReleaseNodeMLValues in H.
    replace (Z.to_nat (free_to_index nep - free_from_index nep + 1)) with 0%nat in H by lia.
    cbn in H. inversion H. auto.
Qed.

(** X7. When a ReleaseMLValue of a node's free range returns an error, the
    window ends there with that status: the node's Compute and after-hooks
    have happened, the releases made so far stay, and no later node is
    visited. *)
Theorem release_failure_aborts_window
    (feeds : list OrtValue) (fetch : list Z) (fs : FrameState)
    (start pc end_ : nat) (fs_pc : FrameState) (evs_pre : list Event)
    (nep : NodeExecutionPlan) (k : OpKernel) (fs1 fs2 : FrameState)
    (err : Status) (evr : list Event) :
  (start <= pc < end_)%nat ->
  execute_nodes ex ss fetch (seq start (pc - start)) fs = (Next, fs_pc, evs_pre) ->
  execution_plan ss !! pc = Some nep ->
  terminate_flag_ ex pc = false ->
  node_is_pruned ex ss fetch (node_index nep) = false ->
  GetKernel ss (node_index nep) = Some k ->
  (ENABLE_TRAINING ex && AllocateInputsContiguously k = true ->
   VerifyInputTensorsAllocatedContiguously k fs_pc = Status_OK) ->
  Compute k fs_pc = (Returns Status_OK, fs1) ->
  ReleaseNodeMLValues ss fs1 nep = (Returned err, fs2, evr) ->
  err <> Status_OK ->
  Execute_range ex ss feeds fetch fs start end_
  = (Returned err, fs2,
     evs_pre ++ sync_before ss (node_index nep) k fs_pc ++ [KernelCompute (node_index nep)]
       ++ sync_after ss (node_index nep) k fs1 ++ evr).
Proof.
  intros Hpc Hpre Hnep Hterm Hprune Hk Hverify Hcompute Hrel Herr.
  apply (window_exits_at feeds fetch fs start pc end_ fs_pc evs_pre); [exact Hpc|exact Hpre|].
  unfold execute_node. rewrite Hnep, Hterm, Hprune, Hk.
  assert (try_compute ex (node_index nep) k fs_pc
          = (inr Status_OK, fs1, [KernelCompute (node_index nep)])) as ->.
  { unfold try_compute.
    destruct (ENABLE_TRAINING ex && AllocateInputsContiguously k).
    - rewrite (Hverify eq_refl). cbn [IsOK]. now rewrite Hcompute.
    - cbn [IsOK]. now rewrite Hcompute. }
  cbn [IsOK]. rewrite Hrel.
  destruct err as [|c cd m]; [congruence|reflexivity].
Qed.

(** X8. Path pruning is off in a minimal build, when the executor was not
    asked for it, and when the session has no to-be-executed set for the
    fetches: a full run that returns success then invokes the kernel of every
    plan entry, in plan order. *)
Theorem full_run_without_pruning
    (DEFAULT_RUN_ID DEFAULT_PARTIAL_RUN_ID : Z)
    (runs : GraphRuns) (feed_idxs : list Z) (feeds : list OrtValue)
    (fetch_idxs : list Z) (fetches : list OrtValue) (allocs : FetchAllocators) :
  ORT_MINIMAL_BUILD ex = true
  \/ only_execute_path_to_fetches_ ex = false
  \/ GetToBeExecutedNodes ss fetch_idxs = None ->
  let r := Execute DEFAULT_RUN_ID DEFAULT_PARTIAL_RUN_ID ex ss runs
             feed_idxs feeds fetch_idxs fetches allocs DEFAULT_RUN_ID in
  result r = Returned Status_OK ->
  computes (events r) = map node_index (execution_plan ss).
Proof.
  intros Hoff. cbv zeta. intros Hr.
  rewrite (full_run_ok_computes DEFAULT_RUN_ID DEFAULT_PARTIAL_RUN_ID ex ss runs feed_idxs
             feeds fetch_idxs fetches allocs Hr).
  rewrite kept_entries_all. f_equal.
  assert (forall n, node_is_pruned ex ss fetch_idxs n = false) as Hnone.
  { intros n. unfold node_is_pruned.
    destruct Hoff as [->|[H|H]]; [reflexivity| |].
    - rewrite H. destruct (ORT_MINIMAL_BUILD ex); [reflexivity|].
      now destruct (GetToBeExecutedNodes ss fetch_idxs).
    - rewrite H. now destruct (ORT_MINIMAL_BUILD ex). }
  induction (execution_plan ss) as [|x l IH]; [reflexivity|].
  cbn [List.filter]. rewrite Hnone. cbn [negb]. now rewrite IH.
Qed.

End WindowProperties.

(** ** Further properties of the run registry and of the window scan *)

Section RegistryProperties.
Context `{FM : FrameModel}.
Variables (DEFAULT_RUN_ID DEFAULT_PARTIAL_RUN_ID : Z).
Variable ex : SequentialExecutor.
Variable ss : SessionState.

Local Abbreviation exec_plan_size := (length (execution_plan ss)).
Local Abbreviation transfer := (GetTransferIntermidiateTensorOwnership ss).

(** A window only changes the entry [it] points to; it keeps the counter
    and the caller's run_id. *)
Lemma execute_window_frame_effect runs it frame run_id feeds fetch fetches :
  let r := execute_window ex ss runs it frame run_id feeds fetch fetches in
  (forall other, other <> it ->
     graph_runs_ (runs_after r) !! other = graph_runs_ runs !! other)
  /\ graph_runs_counter_ (runs_after r) = graph_runs_counter_ runs
  /\ run_id_after r = run_id.
Proof.
  cbv zeta. unfold execute_window.
  assert (forall fr other, other <> it ->
            graph_runs_ (store_frame runs it fr) !! other = graph_runs_ runs !! other) as Hst.
  { intros fr other Hne. cbn. now apply lookup_insert_ne. }
  assert (forall other, other <> it ->
            graph_runs_ (erase_frame runs it) !! other = graph_runs_ runs !! other) as Her.
  { intros other Hne. cbn. now apply lookup_delete_ne. }
  destruct (find_window_end ss _ _ _) as [e|]; [|now repeat split].
  destruct (Execute_range ex ss feeds fetch (state frame) (program_counter_ frame) e)
    as [[o fs1] ev1].
  destruct o as [[|c cd m]|w|];
    try (cbn [runs_after run_id_after]; split; [apply Hst|split; reflexivity]).
  destruct (wait_before_next_node ss fs1 e) as [[|c cd m] ev2];
    [|cbn [runs_after run_id_after]; split; [apply Hst|split; reflexivity]].
  destruct (GetOutputs fs1 fetches transfer) as [[[|c cd m] fetches'] fs2];
    [|cbn [runs_after run_id_after]; split; [apply Hst|split; reflexivity]].
  destruct (Nat.eqb _ _); cbn [runs_after run_id_after];
    (split; [first [apply Her|apply Hst]|split; reflexivity]).
Qed.

(** X9. Runs are isolated in the registry: whatever the run identifier and
    whatever the outcome, a call to Execute leaves every registry entry other
    than its own as it was (its own being the entry under run_id, or under
    the counter for a new partial run). *)
Theorem Execute_leaves_other_runs
    (runs : GraphRuns) (feed_idxs : list Z) (feeds : list OrtValue)
    (fetch_idxs : list Z) (fetches : list OrtValue) (allocs : FetchAllocators)
    (run_id other : Z) :
  other <> (if run_id =? DEFAULT_PARTIAL_RUN_ID then graph_runs_counter_ runs else run_id) ->
  graph_runs_ (runs_after (Execute DEFAULT_RUN_ID DEFAULT_PARTIAL_RUN_ID ex ss runs
                             feed_idxs feeds fetch_idxs fetches allocs run_id)) !! other
  = graph_runs_ runs !! other.
Proof.
  intros Hother. unfold Execute.
  destruct (run_id =? DEFAULT_RUN_ID).
  { destruct (Execute_range ex ss feeds fetch_idxs _ 0 exec_plan_size) as [[o fs1] ev1].
    destruct o as [[|c cd m]|w|]; try reflexivity.
    now destruct (GetOutputs fs1 fetches transfer) as [[st f] fs2]. }
  destruct (run_id =? DEFAULT_PARTIAL_RUN_ID).
  - destruct (graph_runs_ runs !! graph_runs_counter_ runs).
    + now destruct (run_id <? INT64_MAX).
    + destruct (run_id <? INT64_MAX).
      * cbn [runs_after with_events_before].
        rewrite (proj1 (execute_window_frame_effect _ _ _ _ _ _ _) other Hother).
        cbn. now apply lookup_insert_ne.
      * cbn. now apply lookup_insert_ne.
  - destruct (run_id <? 0); [reflexivity|].
    destruct (graph_runs_ runs !! run_id); [|reflexivity].
    cbn [runs_after with_events_before].
    rewrite (proj1 (execute_window_frame_effect _ _ _ _ _ _ _) other Hother).
    cbn. now apply lookup_insert_ne.
Qed.

(** X10. A new partial run is given the current counter as identifier and
    the counter moves on by one, whatever happens in its first window; the
    identifier handed out is therefore one that was not registered before and
    that no later new run gets again while the counter stays below
    INT64_MAX. *)
Theorem new_partial_run_takes_counter
    (runs : GraphRuns) (feed_idxs : list Z) (feeds : list OrtValue)
    (fetch_idxs : list Z) (fetches : list OrtValue) (allocs : FetchAllocators) :
  DEFAULT_PARTIAL_RUN_ID <> DEFAULT_RUN_ID ->
  DEFAULT_PARTIAL_RUN_ID < INT64_MAX ->
  graph_runs_ runs !! graph_runs_counter_ runs = None ->
  graph_runs_counter_ runs < INT64_MAX ->
  let r := Execute DEFAULT_RUN_ID DEFAULT_PARTIAL_RUN_ID ex ss runs
             feed_idxs feeds fetch_idxs fetches allocs DEFAULT_PARTIAL_RUN_ID in
  run_id_after r = graph_runs_counter_ runs
  /\ graph_runs_counter_ (runs_after r) = graph_runs_counter_ runs + 1
  /\ run_id_after r < graph_runs_counter_ (runs_after r).
Proof.
  intros Hne Hlt Hfresh Hmax. cbv zeta.
  rewrite (Execute_new DEFAULT_RUN_ID DEFAULT_PARTIAL_RUN_ID ex ss runs feed_idxs feeds
             fetch_idxs fetches allocs Hne Hlt Hfresh).
  cbn [run_id_after runs_after with_events_before].
  destruct (execute_window_frame_effect
              {| graph_runs_ := <[graph_runs_counter_ runs :=
                                    {| state := NewFrame feed_idxs feeds fetch_idxs fetches allocs;
                                       program_counter_ := 0 |}]> (graph_runs_ runs);
                 graph_runs_counter_ := int64_incr (graph_runs_counter_ runs) |}
              (graph_runs_counter_ runs)
              {| state := NewFrame feed_idxs feeds fetch_idxs fetches allocs;
                 program_counter_ := 0 |}
              (graph_runs_counter_ runs) feeds fetch_idxs fetches) as (_ & Hc & Hid).
  cbv zeta in Hc, Hid. rewrite Hc, Hid. cbn [graph_runs_counter_].
  unfold int64_incr. destruct (Z.leb_spec (graph_runs_counter_ runs + 1) INT64_MAX); lia.
Qed.

(** A window that returns a failure status leaves the frame registered
    with the cursor it started from. *)
Lemma execute_window_failed_keeps_cursor runs it frame run_id feeds fetch fetches st :
  result (execute_window ex ss runs it frame run_id feeds fetch fetches) = Returned st ->
  st <> Status_OK ->
  saved_cursor (runs_after (execute_window ex ss runs it frame run_id feeds fetch fetches)) it
  = Some (program_counter_ frame).
Proof.
  unfold execute_window, saved_cursor.
  destruct (find_window_end ss _ _ _) as [e|]; [|intros H; discriminate H].
  destruct (Execute_range ex ss feeds fetch (state frame) (program_counter_ frame) e)
    as [[o fs1] ev1].
  assert (forall fs', program_counter_ <$>
            graph_runs_ (store_frame runs it
                           {| state := fs'; program_counter_ := program_counter_ frame |}) !! it
          = Some (program_counter_ frame)) as Hst.
  { intros fs'. cbn [graph_runs_ store_frame]. now rewrite lookup_insert_eq. }
  destruct o as [[|c cd m]|w|]; try (intros _ _; apply Hst); try (intros H; discriminate H).
  destruct (wait_before_next_node ss fs1 e) as [[|c cd m] ev2];
    [|intros _ _; apply Hst].
  destruct (GetOutputs fs1 fetches transfer) as [[[|c cd m] fetches'] fs2];
    [|intros _ _; apply Hst].
  destruct (Nat.eqb _ _); cbn [result]; intros H Hst'; congruence.
Qed.

(** X11. A resumed window that returns a failure status does not advance:
    the run stays registered with the cursor it had, so that a retry with the
    same identifier starts again at the first node of the failed window. *)
Theorem failed_resume_keeps_cursor
    (runs : GraphRuns) (feed_idxs : list Z) (feeds : list OrtValue)
    (fetch_idxs : list Z) (fetches : list OrtValue) (allocs : FetchAllocators)
    (run_id : Z) (found : ExecutionFrame) (st : Status) :
  run_id <> DEFAULT_RUN_ID -> run_id <> DEFAULT_PARTIAL_RUN_ID -> 0 <= run_id ->
  graph_runs_ runs !! run_id = Some found ->
  let r := Execute DEFAULT_RUN_ID DEFAULT_PARTIAL_RUN_ID ex ss runs
             feed_idxs feeds fetch_idxs fetches allocs run_id in
  result r = Returned st ->
  st <> Status_OK ->
  saved_cursor (runs_after r) run_id = Some (program_counter_ found).
Proof.
  intros H1 H2 H3 Hl. cbv zeta.
  rewrite (Execute_resume DEFAULT_RUN_ID DEFAULT_PARTIAL_RUN_ID ex ss runs feed_idxs feeds
             fetch_idxs fetches allocs run_id found H1 H2 H3 Hl).
  cbn [result runs_after with_events_before]. intros Hr Hst.
  now rewrite (execute_window_failed_keeps_cursor _ _ _ _ _ _ _ st Hr Hst).
Qed.

(** X12. A new partial run whose first window returns a failure status is
    registered all the same: the caller's run_id holds the new identifier and
    the frame stays in the registry with cursor 0. *)
Theorem failed_new_run_stays_registered
    (runs : GraphRuns) (feed_idxs : list Z) (feeds : list OrtValue)
    (fetch_idxs : list Z) (fetches : list OrtValue) (allocs : FetchAllocators)
    (st : Status) :
  DEFAULT_PARTIAL_RUN_ID <> DEFAULT_RUN_ID ->
  DEFAULT_PARTIAL_RUN_ID < INT64_MAX ->
  graph_runs_ runs !! graph_runs_counter_ runs = None ->
  let r := Execute DEFAULT_RUN_ID DEFAULT_PARTIAL_RUN_ID ex ss runs
             feed_idxs feeds fetch_idxs fetches allocs DEFAULT_PARTIAL_RUN_ID in
  result r = Returned st ->
  st <> Status_OK ->
  run_id_after r = graph_runs_counter_ runs
  /\ saved_cursor (runs_after r) (graph_runs_counter_ runs) = Some 0%nat.
Proof.
  intros Hne Hlt Hfresh. cbv zeta.
  rewrite (Execute_new DEFAULT_RUN_ID DEFAULT_PARTIAL_RUN_ID ex ss runs feed_idxs feeds
             fetch_idxs fetches allocs Hne Hlt Hfresh).
  cbn [result runs_after run_id_after with_events_before]. intros Hr Hst.
  split.
  - apply execute_window_frame_effect.
  - now rewrite (execute_window_failed_keeps_cursor _ _ _ _ _ _ _ st Hr Hst).
Qed.

End RegistryProperties.

Section WindowScan.
Context `{FM : FrameModel}.
Variables (DEFAULT_RUN_ID DEFAULT_PARTIAL_RUN_ID : Z).
Variable ex : SequentialExecutor.
Variable ss : SessionState.

Local Abbreviation exec_plan_size := (length (execution_plan ss)).
Local Abbreviation transfer := (GetTransferIntermidiateTensorOwnership ss).

Lemma find_window_end_scan n c : forall p e,
  find_window_end ss n c p = Some e ->
  (exec_plan_size < p + n)%nat ->
  (forall q, (p <= q < e)%nat -> q <> c -> yield_at ss q false)
  /\ ((exec_plan_size <= e)%nat \/ (yield_at ss e true /\ e <> c)).
Proof.
  induction n as [|n IH]; intros p e H Hfuel; cbn [find_window_end] in H.
  - inversion H; subst. split; [intros q Hq; lia|left; lia].
  - destruct (execution_plan ss !! p) as [nep|] eqn:El.
    + pose proof (lookup_lt_Some _ _ _ El) as Hlt.
      destruct (GetKernel ss (node_index nep)) as [k|] eqn:Ek; [|discriminate H].
      destruct (String.eqb (OpName k) "YieldOp") eqn:Eop; cbn [negb orb] in H.
      * destruct (Nat.eqb_spec p c) as [Hpc|Hpc].
        -- destruct (IH _ _ H ltac:(lia)) as [IH1 IH2]. split; [|exact IH2].
           intros q Hq Hqc. apply IH1; [lia|exact Hqc].
        -- inversion H; subst e. split; [intros q Hq; lia|].
           right. split; [|exact Hpc]. now exists nep, k.
      * destruct (IH _ _ H ltac:(lia)) as [IH1 IH2]. split; [|exact IH2].
        intros q Hq Hqc. destruct (Nat.eq_dec q p) as [->|Hne].
        -- now exists nep, k.
        -- apply IH1; [lia|exact Hqc].
    + inversion H; subst. apply lookup_ge_None in El.
      split; [intros q Hq; lia|left; exact El].
Qed.

(** X13. The end of a partial-run window is the first position after the
    cursor that holds a YieldOp kernel, or the plan end when there is none:
    no position strictly between the cursor and the window end is a YieldOp,
    and the window end is either the plan size or a YieldOp position after
    the cursor. *)
Theorem window_end_is_first_yield_after_cursor (c e : nat) :
  (c <= exec_plan_size)%nat ->
  find_window_end ss (S exec_plan_size) c c = Some e ->
  (forall q, (c < q < e)%nat -> yield_at ss q false)
  /\ (e = exec_plan_size \/ ((c < e < exec_plan_size)%nat /\ yield_at ss e true)).
Proof.
  intros Hc H.
  destruct (find_window_end_scan _ _ _ _ H ltac:(lia)) as [H1 H2].
  destruct (find_window_end_bounds ss _ _ _ _ H) as (Hle & Hin & _).
  specialize (Hin Hc).
  split; [intros q Hq; apply H1; lia|].
  destruct H2 as [H2|[(nep & k & Hl & Hy) Hne]]; [left; lia|right].
  pose proof (lookup_lt_Some _ _ _ Hl). split; [lia|now exists nep, k].
Qed.


(** X15. A registered run whose cursor lies beyond the plan end can never
    complete: a call with its identifier makes no call to a kernel, a fence
    or the frame's release, only looks the run up; the entry stays in the
    registry; and when the call returns success the cursor is unchanged, or
    one further on with ownership transfer. *)
Theorem run_beyond_plan_end_never_completes
    (runs : GraphRuns) (feed_idxs : list Z) (feeds : list OrtValue)
    (fetch_idxs : list Z) (fetches : list OrtValue) (allocs : FetchAllocators)
    (run_id : Z) (found : ExecutionFrame) :
  run_id <> DEFAULT_RUN_ID -> run_id <> DEFAULT_PARTIAL_RUN_ID -> 0 <= run_id ->
  graph_runs_ runs !! run_id = Some found ->
  (exec_plan_size < program_counter_ found)%nat ->
  let r := Execute DEFAULT_RUN_ID DEFAULT_PARTIAL_RUN_ID ex ss runs
             feed_idxs feeds fetch_idxs fetches allocs run_id in
  events r = [GraphRunsFind run_id]
  /\ is_Some (graph_runs_ (runs_after r) !! run_id)
  /\ (result r = Returned Status_OK ->
      saved_cursor (runs_after r) run_id
      = Some (if transfer then (program_counter_ found + 1)%nat else program_counter_ found)).
Proof.
  intros H1 H2 H3 Hl Hc. cbv zeta.
  rewrite (Execute_resume DEFAULT_RUN_ID DEFAULT_PARTIAL_RUN_ID ex ss runs feed_idxs feeds
             fetch_idxs fetches allocs run_id found H1 H2 H3 Hl).
  set (frame := {| state := _; program_counter_ := program_counter_ found |}).
  assert (execution_plan ss !! program_counter_ found = None) as Hnone
    by (apply lookup_ge_None; lia).
  unfold execute_window, saved_cursor. cbn [program_counter_ frame].
  cbn [find_window_end]. rewrite Hnone.
  unfold Execute_range. rewrite Nat.sub_diag. cbn [seq execute_nodes].
  unfold wait_before_next_node. rewrite Hnone.
  assert (forall fr, is_Some (graph_runs_ (store_frame (store_frame runs run_id frame) run_id fr)
                                !! run_id)) as Hsome.
  { intros fr. cbn [graph_runs_ store_frame]. rewrite lookup_insert_eq. eauto. }
  destruct (publish_memory_patterns ss feeds (state frame)) as [|c cd m];
    [|cbn [events result runs_after with_events_before app];
      split; [reflexivity|split; [apply Hsome|intros H; discriminate H]]].
  destruct (GetOutputs (state frame) fetches transfer) as [[[|c cd m] fetches'] fs2];
    [|cbn [events result runs_after with_events_before app];
      split; [reflexivity|split; [apply Hsome|intros H; discriminate H]]].
  assert (Nat.eqb (if transfer then (program_counter_ found + 1)%nat
                   else program_counter_ found) exec_plan_size = false) as ->.
  { apply Nat.eqb_neq. destruct transfer; lia. }
  cbn [events result runs_after with_events_before app].
  split; [reflexivity|]. split; [apply Hsome|]. intros _.
  cbn [graph_runs_ store_frame]. now rewrite lookup_insert_eq.
Qed.

End WindowScan.

(** ** Properties of the profiling helpers *)

Section ProfilingProperties.
Context `{FM : FrameModel}.
Variable size_bits : nat.
Variable Tensor : Type.
Variable Get_Tensor : OrtValue -> Tensor.
Variable SizeInBytes : Tensor -> Z.

Local Abbreviation M := (size_t_modulus size_bits).

Lemma size_t_modulus_pos : 0 < M.
Proof. unfold size_t_modulus. apply Z.pow_pos_nonneg; lia. Qed.

Lemma size_t_add_acc (acc s rest : Z) :
  (size_t_add size_bits acc s + rest) mod M = (acc + (s + rest)) mod M.
Proof. unfold size_t_add. rewrite Zplus_mod_idemp_l. f_equal. lia. Qed.

Lemma output_sizes_fold GetOutputMLValue (l : list nat) : forall acc,
  0 <= acc < M ->
  fold_left (fun total i =>
    match GetOutputMLValue i with
    | Some p_output =>
        if IsTensor p_output
        then size_t_add size_bits total (SizeInBytes (Get_Tensor p_output))
        else total
    | None => total
    end) l acc
  = (acc + sum_Z (map (output_size Tensor Get_Tensor SizeInBytes GetOutputMLValue) l)) mod M.
Proof.
  pose proof size_t_modulus_pos as HM.
  induction l as [|i l IH]; intros acc Hacc; cbn [fold_left map sum_Z fold_right].
  - rewrite Z.add_0_r. symmetry. now apply Z.mod_small.
  - unfold output_size at 1.
    destruct (GetOutputMLValue i) as [v|]; [destruct (IsTensor v)|].
    + rewrite IH by (apply Z.mod_pos_bound; lia). apply size_t_add_acc.
    + rewrite IH by exact Hacc. f_equal.
    + rewrite IH by exact Hacc. f_equal.
Qed.

(** X16. CalculateTotalOutputSizes returns the sum of the sizes of the
    outputs that are non-null tensors, reduced modulo the range of size_t;
    null outputs and non-tensor outputs count for nothing, and when that sum
    fits in size_t (sizes being non-negative) the result is the sum itself. *)
Theorem total_output_sizes_is_sum (OutputCount : nat)
    (GetOutputMLValue : nat -> option OrtValue) :
  let sizes := map (output_size Tensor Get_Tensor SizeInBytes GetOutputMLValue)
                 (seq 0 OutputCount) in
  CalculateTotalOutputSizes size_bits Tensor Get_Tensor SizeInBytes OutputCount GetOutputMLValue
  = sum_Z sizes mod M
  /\ (0 <= sum_Z sizes < M ->
      CalculateTotalOutputSizes size_bits Tensor Get_Tensor SizeInBytes OutputCount
        GetOutputMLValue = sum_Z sizes).
Proof.
  pose proof size_t_modulus_pos as HM. cbv zeta.
  assert (CalculateTotalOutputSizes size_bits Tensor Get_Tensor SizeInBytes OutputCount
            GetOutputMLValue
          = sum_Z (map (output_size Tensor Get_Tensor SizeInBytes GetOutputMLValue)
                     (seq 0 OutputCount)) mod M) as H.
  { unfold CalculateTotalOutputSizes. rewrite output_sizes_fold by lia. now rewrite Z.add_0_l. }
  split; [exact H|]. intros Hfit. rewrite H. now apply Z.mod_small.
Qed.

Lemma input_sizes_fold GetInputMLValue TryGetConstantInput (l : list nat) : forall a p,
  0 <= a < M -> 0 <= p < M ->
  fold_left (fun sizes i =>
    match GetInputMLValue i with
    | Some p_input =>
        if IsTensor p_input then
          match TryGetConstantInput i with
          | Some p_tensor =>
              (fst sizes, size_t_add size_bits (snd sizes) (SizeInBytes p_tensor))
          | None =>
              (size_t_add size_bits (fst sizes) (SizeInBytes (Get_Tensor p_input)), snd sizes)
          end
        else sizes
    | None => sizes
    end) l (a, p)
  = ((a + sum_Z (map (activation_size Tensor Get_Tensor SizeInBytes GetInputMLValue
                        TryGetConstantInput) l)) mod M,
     (p + sum_Z (map (parameter_size Tensor SizeInBytes GetInputMLValue
                        TryGetConstantInput) l)) mod M).
Proof.
  pose proof size_t_modulus_pos as HM.
  induction l as [|i l IH]; intros a p Ha Hp; cbn [fold_left map sum_Z fold_right].
  - rewrite !Z.add_0_r. now rewrite !Z.mod_small.
  - unfold activation_size at 1, parameter_size at 1.
    destruct (GetInputMLValue i) as [v|]; [destruct (IsTensor v)|].
    + destruct (TryGetConstantInput i) as [t|]; cbn [fst snd].
      * rewrite IH by (try apply Z.mod_pos_bound; lia).
        now rewrite size_t_add_acc.
      * rewrite IH by (try apply Z.mod_pos_bound; lia).
        now rewrite size_t_add_acc.
    + destruct (TryGetConstantInput i); now rewrite IH.
    + now rewrite IH.
Qed.

(** X17. CalculateTotalInputSizes splits the inputs that are non-null
    tensors into parameters (the constant inputs, counted with the size of
    the constant tensor) and activations (all others): each of the two
    results is the sum of its own class modulo the range of size_t, no input
    is counted in both, and without constant inputs the parameter size is 0. *)
Theorem total_input_sizes_split (InputCount : nat)
    (GetInputMLValue : nat -> option OrtValue) (TryGetConstantInput : nat -> option Tensor) :
  let r := CalculateTotalInputSizes size_bits Tensor Get_Tensor SizeInBytes InputCount
             GetInputMLValue TryGetConstantInput in
  fst r = sum_Z (map (activation_size Tensor Get_Tensor SizeInBytes GetInputMLValue
                        TryGetConstantInput) (seq 0 InputCount)) mod M
  /\ snd r = sum_Z (map (parameter_size Tensor SizeInBytes GetInputMLValue
                          TryGetConstantInput) (seq 0 InputCount)) mod M
  /\ (forall i, activation_size Tensor Get_Tensor SizeInBytes GetInputMLValue
                  TryGetConstantInput i = 0
                \/ parameter_size Tensor SizeInBytes GetInputMLValue TryGetConstantInput i = 0)
  /\ ((forall i, TryGetConstantInput i = None) -> snd r = 0).
Proof.
  pose proof size_t_modulus_pos as HM. cbv zeta.
  unfold CalculateTotalInputSizes. rewrite input_sizes_fold by lia.
  cbn [fst snd]. rewrite !Z.add_0_l.
  split; [reflexivity|]. split; [reflexivity|]. split.
  - intros i. unfold activation_size, parameter_size.
    destruct (GetInputMLValue i); [|now left].
    destruct (TryGetConstantInput i); [now left|now right].
  - intros Hnone.
    assert (forall l, sum_Z (map (parameter_size Tensor SizeInBytes GetInputMLValue
                                    TryGetConstantInput) l) = 0) as ->.
    { induction l as [|i l IH]; [reflexivity|]. cbn [map sum_Z fold_right].
      change (fold_right Z.add 0 ?x) with (sum_Z x). rewrite IH.
      unfold parameter_size. rewrite Hnone. now destruct (GetInputMLValue i). }
    now apply Z.mod_0_l, Z.neq_sym, Z.lt_neq.
Qed.

End ProfilingProperties.

(** ** Properties of the Objective-C ORTValue *)

Section OrtValueProperties.
Variable size_bits : nat.

(** The builtin reports an overflow exactly when the product of two
    size_t values does not fit in size_t. *)
Lemma builtin_mul_overflow_iff (a b : Z) :
  0 <= a -> 0 <= b ->
  (fst (builtin_mul_overflow size_bits a b) = false <-> a * b <= SIZE_MAX size_bits).
Proof.
  intros Ha Hb. pose proof (size_t_modulus_pos size_bits) as HM.
  unfold builtin_mul_overflow, SIZE_MAX. cbn [fst].
  assert (0 <= a * b) as Hab by nia.
  rewrite negb_false_iff, Z.eqb_eq. split.
  - intros H. pose proof (Z.mod_pos_bound (a * b) _ HM). lia.
  - intros H. apply Z.mod_small. lia.
Qed.

(** X18. SafeMultiply on two size_t values returns true exactly when their
    product fits in size_t, and then [out] is the product; in every case
    [out] is the product modulo the range of size_t. *)
Theorem SafeMultiply_true_iff_fits (a b : Z) :
  0 <= a -> 0 <= b ->
  (fst (SafeMultiply size_bits a b) = true <-> a * b <= SIZE_MAX size_bits)
  /\ (fst (SafeMultiply size_bits a b) = true -> snd (SafeMultiply size_bits a b) = a * b)
  /\ snd (SafeMultiply size_bits a b) = (a * b) mod size_t_modulus size_bits.
Proof.
  intros Ha Hb. pose proof (builtin_mul_overflow_iff a b Ha Hb) as Hiff.
  unfold SafeMultiply.
  destruct (builtin_mul_overflow size_bits a b) as [overflow out] eqn:E.
  assert (out = (a * b) mod size_t_modulus size_bits) as Hout.
  { unfold builtin_mul_overflow in E. now inversion E. }
  cbn [fst snd] in *. rewrite negb_true_iff.
  split; [exact Hiff|]. split; [|exact Hout].
  intros Hok. rewrite Hout. apply Z.mod_small.
  pose proof (proj1 Hiff Hok). unfold SIZE_MAX in *. nia.
Qed.

Variable ElementType : Type.
Variable RawData : Type.

(** X19. tensorDataWithError never hands out a truncated length: for a
    tensor of [elementCount] elements of [elementSize] bytes, the data
    returned has length elementCount * elementSize when that product fits in
    size_t (the result being the error of GetTensorMutableData if that call
    fails), and otherwise the call fails with ORT_RUNTIME_EXCEPTION and
    "failed to compute tensor data length", whatever the data pointer is. *)
Theorem tensorData_length_is_exact
    (info : Try (Z * ElementType)) (SizeOf : ElementType -> Try Z)
    (GetTensorMutableData : Try RawData)
    (elementCount elementSize : Z) (elementType : ElementType) :
  info = inr (elementCount, elementType) ->
  SizeOf elementType = inr elementSize ->
  0 <= elementCount -> 0 <= elementSize ->
  tensorDataWithError size_bits ElementType RawData info SizeOf GetTensorMutableData
  = if elementCount * elementSize <=? SIZE_MAX size_bits
    then match GetTensorMutableData with
         | inl e => inl e
         | inr rawData => inr (rawData, elementCount * elementSize)
         end
    else inl {| exception_what := "failed to compute tensor data length";
                exception_code := ORT_RUNTIME_EXCEPTION |}.
Proof.
  intros -> Hs Hc He. unfold tensorDataWithError. rewrite Hs.
  pose proof (builtin_mul_overflow_iff elementCount elementSize Hc He) as Hiff.
  unfold SafeMultiply.
  destruct (builtin_mul_overflow size_bits elementCount elementSize) as [overflow out] eqn:E.
  assert (out = (elementCount * elementSize) mod size_t_modulus size_bits) as Hout.
  { unfold builtin_mul_overflow in E. now inversion E. }
  cbn [fst] in Hiff.
  destruct (Z.leb_spec (elementCount * elementSize) (SIZE_MAX size_bits)) as [Hfit|Hfit].
  - rewrite (proj2 Hiff Hfit). cbn [negb].
    assert (out = elementCount * elementSize) as ->.
    { rewrite Hout. apply Z.mod_small. unfold SIZE_MAX in Hfit. nia. }
    reflexivity.
  - destruct overflow; [reflexivity|]. pose proof (proj1 Hiff eq_refl). lia.
Qed.

End OrtValueProperties.

(** ** Sample runs for the properties above *)


(** X2, witness: the flag is seen set from node 1 on. *)
Lemma terminate_flag_stops_before_node_witness :
  Execute_range (MoreSamples.executor_terminated_from 1) Sample.chain3 [10] [3]
    Sample.fed_frame 0%nat 3%nat
  = (Returned (Status_ ONNXRUNTIME FAIL "Exiting due to terminate flag being set to true."),
     MoreSamples.after_node_0, [KernelCompute 0%nat; ReleaseValue 0]).
Proof.
  apply (terminate_flag_stops_before_node (MoreSamples.executor_terminated_from 1)
           Sample.chain3 [10] [3] Sample.fed_frame 0%nat 1%nat 3%nat).
  - lia.
  - cbn. lia.
  - vm_compute. reflexivity.
  - reflexivity.
Defined.

(** X3, witness: node 1 has no kernel. *)
Lemma null_kernel_aborts_window_witness :
  Execute_range (Sample.executor false false) MoreSamples.missing_kernel [10] [3]
    Sample.fed_frame 0%nat 3%nat
  = (Returned (Status_ ONNXRUNTIME FAIL "Got nullptr from GetKernel for node: 1n"),
     MoreSamples.after_node_0, [KernelCompute 0%nat; ReleaseValue 0]).
Proof.
  apply (null_kernel_aborts_window (Sample.executor false false) MoreSamples.missing_kernel
           [10] [3] Sample.fed_frame 0%nat 1%nat 3%nat MoreSamples.after_node_0
           [KernelCompute 0%nat; ReleaseValue 0]
           {| node_index := 1%nat; free_from_index := 1; free_to_index := 1 |}).
  - lia.
  - vm_compute. reflexivity.
  - reflexivity.
  - reflexivity.
  - reflexivity.
  - reflexivity.
Defined.

(** X4, witness: node 1 wants contiguous inputs and does not get them. *)
Lemma contiguity_check_failure_skips_compute_witness :
  Execute_range (Sample.executor false false) MoreSamples.not_contiguous [10] [3]
    Sample.fed_frame 0%nat 3%nat
  = (Returned (Status_ ONNXRUNTIME FAIL "inputs are not contiguous"),
     MoreSamples.after_node_0,
     [KernelCompute 0%nat; ReleaseValue 0]
       ++ [BeforeUsingAsInput 1%nat "CUDAExecutionProvider" 0]).
Proof.
  apply (contiguity_check_failure_skips_compute (Sample.executor false false)
           MoreSamples.not_contiguous [10] [3] Sample.fed_frame 0%nat 1%nat 3%nat
           MoreSamples.after_node_0 [KernelCompute 0%nat; ReleaseValue 0]
           {| node_index := 1%nat; free_from_index := 1; free_to_index := 1 |}
           (MoreSamples.contiguous_kernel 1 2)
           (Status_ ONNXRUNTIME FAIL "inputs are not contiguous")).
  - lia.
  - vm_compute. reflexivity.
  - reflexivity.
  - reflexivity.
  - reflexivity.
  - reflexivity.
  - reflexivity.
  - reflexivity.
  - reflexivity.
  - discriminate.
Defined.

(** X5, witness: the kernel of node 1 returns (ONNXRUNTIME, FAIL, "bad shape"). *)
Lemma compute_failure_keeps_category_and_code_witness :
  exists prefix,
    fst (fst (Execute_range (Sample.executor false false) Sample.failing_chain [10] [3]
                Sample.fed_frame 0%nat 3%nat))
    = Returned (Status_ ONNXRUNTIME FAIL (prefix ++ "bad shape")%string).
Proof.
  apply (compute_failure_keeps_category_and_code (Sample.executor false false)
           Sample.failing_chain [10] [3] Sample.fed_frame 0%nat 1%nat 3%nat
           MoreSamples.after_node_0
           [BeforeUsingAsInput 0%nat "CPUExecutionProvider" 0; KernelCompute 0%nat;
            AfterUsedAsInput 0%nat 0; AfterUsedAsOutput 1%nat 0; ReleaseValue 0]
           {| node_index := 1%nat; free_from_index := 1; free_to_index := 1 |}
           (Sample.failing_kernel 1 2)
           (Returns (Status_ ONNXRUNTIME FAIL "bad shape")) MoreSamples.after_node_0).
  - lia.
  - vm_compute. reflexivity.
  - reflexivity.
  - reflexivity.
  - reflexivity.
  - reflexivity.
  - intros _. reflexivity.
  - reflexivity.
  - discriminate.
Defined.

(** X6, witness: slots 0, 9 and 1 are to be freed and slot 9 does not
    exist: the release stops after the second of the three. *)
Lemma release_is_prefix_of_free_range_witness :
  exists j,
    (j <= length (free_positions
                    {| node_index := 0%nat; free_from_index := 0; free_to_index := 2 |}))%nat
    /\ [ReleaseValue 0; ReleaseValue 9]
       = map ReleaseValue
           (take j (freed_slots MoreSamples.bad_free_list
                      {| node_index := 0%nat; free_from_index := 0; free_to_index := 2 |})).
Proof.
  apply (release_is_prefix_of_free_range MoreSamples.bad_free_list
           ([Some 10; Some 11; None; None; None; None; None; None], [3])
           {| node_index := 0%nat; free_from_index := 0; free_to_index := 2 |}
           (Returned (Status_ ONNXRUNTIME INVALID_ARGUMENT "invalid index"))
           MoreSamples.after_node_0 [ReleaseValue 0; ReleaseValue 9]).
  vm_compute. reflexivity.
Defined.

(** X7, witness: the failed release of slot 9 ends the window at node 0. *)
Lemma release_failure_aborts_window_witness :
  Execute_range (Sample.executor false false) MoreSamples.bad_free_list [10] [3]
    Sample.fed_frame 0%nat 2%nat
  = (Returned (Status_ ONNXRUNTIME INVALID_ARGUMENT "invalid index"),
     MoreSamples.after_node_0,
     [] ++ [] ++ [KernelCompute 0%nat] ++ [] ++ [ReleaseValue 0; ReleaseValue 9]).
Proof.
  apply (release_failure_aborts_window (Sample.executor false false) MoreSamples.bad_free_list
           [10] [3] Sample.fed_frame 0%nat 0%nat 2%nat Sample.fed_frame []
           {| node_index := 0%nat; free_from_index := 0; free_to_index := 2 |}
           (Sample.incr_kernel 0 1)
           ([Some 10; Some 11; None; None; None; None; None; None], [3])
           MoreSamples.after_node_0
           (Status_ ONNXRUNTIME INVALID_ARGUMENT "invalid index")
           [ReleaseValue 0; ReleaseValue 9]).
  - lia.
  - reflexivity.
  - reflexivity.
  - reflexivity.
  - reflexivity.
  - reflexivity.
  - intros _. reflexivity.
  - reflexivity.
  - vm_compute. reflexivity.
  - discriminate.
Defined.

(** X8, witness: the chain of three nodes, which has no to-be-executed set. *)
Lemma full_run_without_pruning_witness :
  computes (events Sample.full_run_chain3) = [0; 1; 2]%nat.
Proof.
  apply (full_run_without_pruning (Sample.executor false false) Sample.chain3
           Sample.DEFAULT_RUN_ID Sample.DEFAULT_PARTIAL_RUN_ID Sample.no_runs
           [0] [10] [3] [] tt).
  - right. right. reflexivity.
  - vm_compute. reflexivity.
Defined.

(** X9, witness: resuming run 0 leaves run 7 as it was. *)
Lemma Execute_leaves_other_runs_witness :
  graph_runs_ (runs_after MoreSamples.resume_of_two_runs) !! 7
  = graph_runs_ MoreSamples.two_runs !! 7.
Proof.
  apply (Execute_leaves_other_runs Sample.DEFAULT_RUN_ID Sample.DEFAULT_PARTIAL_RUN_ID
           (Sample.executor false false) (Sample.yield_at_2 true) MoreSamples.two_runs
           [0] [10] [3] [] tt 0 7).
  discriminate.
Defined.

(** X10, witness: the first partial run of a session gets identifier 0. *)
Lemma new_partial_run_takes_counter_witness :
  run_id_after (Sample.new_partial_run false) = 0
  /\ graph_runs_counter_ (runs_after (Sample.new_partial_run false)) = 0 + 1
  /\ run_id_after (Sample.new_partial_run false)
     < graph_runs_counter_ (runs_after (Sample.new_partial_run false)).
Proof.
  apply (new_partial_run_takes_counter Sample.DEFAULT_RUN_ID Sample.DEFAULT_PARTIAL_RUN_ID
           (Sample.executor false false) (Sample.yield_at_2 false) Sample.no_runs
           [0] [10] [3] [] tt).
  - discriminate.
  - reflexivity.
  - reflexivity.
  - reflexivity.
Defined.

(** X11, witness: run 0 is suspended at cursor 3 and its next window fails
    at node 3, whose input the skipped suspension operator never produced. *)
Lemma failed_resume_keeps_cursor_witness :
  saved_cursor (runs_after MoreSamples.resume_of_two_runs) 0 = Some 3%nat.
Proof.
  apply (failed_resume_keeps_cursor Sample.DEFAULT_RUN_ID Sample.DEFAULT_PARTIAL_RUN_ID
           (Sample.executor false false) (Sample.yield_at_2 true) MoreSamples.two_runs
           [0] [10] [3] [] tt 0
           (@Build_ExecutionFrame Sample.frame
              ([None; None; Some 12; None; None; None; None; None], [3]) 3%nat)
           (Status_ ONNXRUNTIME FAIL
              "Non-zero status code returned while running Incr node. Name:'3n' Status Message: missing input")).
  - discriminate.
  - discriminate.
  - lia.
  - vm_compute. reflexivity.
  - vm_compute. reflexivity.
  - discriminate.
Defined.

(** X12, witness: the first window of a new partial run fails at node 1. *)
Lemma failed_new_run_stays_registered_witness :
  run_id_after MoreSamples.new_run_failing_chain = 0
  /\ saved_cursor (runs_after MoreSamples.new_run_failing_chain) 0 = Some 0%nat.
Proof.
  apply (failed_new_run_stays_registered Sample.DEFAULT_RUN_ID Sample.DEFAULT_PARTIAL_RUN_ID
           (Sample.executor false false) Sample.failing_chain Sample.no_runs
           [0] [10] [3] [] tt
           (Status_ ONNXRUNTIME FAIL
              "Non-zero status code returned while running Incr node. Name:'1n' Status Message: bad shape")).
  - discriminate.
  - reflexivity.
  - reflexivity.
  - vm_compute. reflexivity.
  - discriminate.
Defined.

(** X13, witness: in the five-node plan the window from cursor 0 ends at 2. *)
Lemma window_end_is_first_yield_after_cursor_witness :
  2%nat = length (execution_plan (Sample.yield_at_2 false))
  \/ ((0 < 2 < length (execution_plan (Sample.yield_at_2 false)))%nat
      /\ yield_at (Sample.yield_at_2 false) 2 true).
Proof.
  apply (window_end_is_first_yield_after_cursor (Sample.yield_at_2 false) 0 2).
  - cbn. lia.
  - vm_compute. reflexivity.
Defined.


(** X15, witness: the one-node run left at cursor 2 by its first call. *)
Lemma run_beyond_plan_end_never_completes_witness :
  events Sample.one_node_second = [GraphRunsFind 0]
  /\ saved_cursor (runs_after Sample.one_node_second) 0 = Some 3%nat.
Proof.
  destruct (run_beyond_plan_end_never_completes Sample.DEFAULT_RUN_ID
              Sample.DEFAULT_PARTIAL_RUN_ID (Sample.executor false false) Sample.one_node
              (runs_after Sample.one_node_first) [0] [10] [3] [] tt 0
              (@Build_ExecutionFrame Sample.frame
                 ([None; None; None; Some 11; None; None; None; None], [3]) 2%nat)
              ltac:(discriminate) ltac:(discriminate) ltac:(lia)
              ltac:(vm_compute; reflexivity) ltac:(cbn; lia)) as (Hev & _ & Hcur).
  split; [exact Hev|]. apply Hcur. vm_compute. reflexivity.
Defined.

(** X16, witness: three outputs, a tensor of 100 bytes, a null output and
    a tensor of 28 bytes, on a platform with a 64-bit size_t. *)
Lemma total_output_sizes_is_sum_witness :
  @CalculateTotalOutputSizes Sample.frame 64 Z id id 3
    (fun i => match i with 0%nat => Some 100 | 1%nat => None | _ => Some 28 end) = 128.
Proof.
  apply (proj2 (@total_output_sizes_is_sum Sample.frame 64 Z id id 3
                  (fun i => match i with 0%nat => Some 100 | 1%nat => None | _ => Some 28 end))).
  vm_compute. split; [intros H; discriminate H|reflexivity].
Defined.

(** X17, witness: two tensor inputs, none of them constant. *)
Lemma total_input_sizes_split_witness :
  snd (@CalculateTotalInputSizes Sample.frame 64 Z id id 2
         (fun i => Some (Z.of_nat i + 16)) (fun _ => None)) = 0.
Proof.
  apply (@total_input_sizes_split Sample.frame 64 Z id id 2
           (fun i => Some (Z.of_nat i + 16)) (fun _ => None)).
  intros i. reflexivity.
Defined.

(** X18, witness: 3 * 4 with a 64-bit size_t. *)
Lemma SafeMultiply_true_iff_fits_witness :
  snd (SafeMultiply 64 3 4) = 3 * 4.
Proof.
  destruct (SafeMultiply_true_iff_fits 64 3 4 ltac:(lia) ltac:(lia)) as (_ & Hout & _).
  apply Hout. reflexivity.
Defined.

(** X19, witness: six elements of four bytes. *)
Lemma tensorData_length_is_exact_witness :
  tensorDataWithError 64 unit nat (inr (6, tt)) (fun _ => inr 4) (inr 1000%nat)
  = inr (1000%nat, 6 * 4).
Proof.
  exact (tensorData_length_is_exact 64 unit nat (inr (6, tt)) (fun _ => inr 4) (inr 1000%nat)
           6 4 tt eq_refl eq_refl ltac:(lia) ltac:(lia)).
Defined.
